(** * Beta_UserData_Clean: the reply-extraction and spreadsheet pipeline

    A shallow embedding of the Node servers of the repository
    ([server.js], which holds two variants, and the variant kept in
    [unnamed/part_000]) together with the properties of their
    inference client, reply extraction, row reconciliation, output
    naming and cleanup.

    JavaScript strings are sequences of UTF-16 code units, values are
    the JSON fragment of JavaScript values plus [undefined], and code
    that may throw returns a [result]: [Ok] with its value, or [Throw]
    with the error.  The file system is explicit state. *)

From Stdlib Require Import ZArith NArith Ascii String.
From stdpp Require Import base list gmap.

Set Warnings "-register-all".

Local Open Scope N_scope.
Local Open Scope list_scope.

(** ** Strings *)

Module JsString.

(** A UTF-16 code unit and a JavaScript string. *)
Definition cu := N.
Definition jsstr := list cu.

(** A literal, read code unit by code unit. *)
Fixpoint u (s : string) : jsstr :=
  match s with
  | EmptyString => []
  | String a r => N_of_ascii a :: u r
  end.

(** A literal in which the apostrophe stands for the double quote
    (34), used to write JSON text. *)
Fixpoint q (s : string) : jsstr :=
  match s with
  | EmptyString => []
  | String a r => (if N.eqb (N_of_ascii a) 39 then 34 else N_of_ascii a) :: q r
  end.

Definition LBRACKET : cu := 91.
Definition RBRACKET : cu := 93.
Definition COLON : cu := 58.
Definition DASH : cu := 45.
Definition LF : cu := 10.

(** [String.prototype.indexOf] for a one-unit search string: the
    index of the first occurrence, [-1] when there is none. *)
Fixpoint indexOf (c : cu) (s : jsstr) : Z :=
  match s with
  | [] => (-1)%Z
  | x :: r =>
      if N.eqb x c then 0%Z
      else let i := indexOf c r in
           if Z.eqb i (-1) then (-1)%Z else (i + 1)%Z
  end.

(** [String.prototype.lastIndexOf] for a one-unit search string. *)
Fixpoint lastIndexOf (c : cu) (s : jsstr) : Z :=
  match s with
  | [] => (-1)%Z
  | x :: r =>
      let i := lastIndexOf c r in
      if Z.eqb i (-1) then (if N.eqb x c then 0%Z else (-1)%Z)
      else (i + 1)%Z
  end.

(** [String.prototype.substring(a, b)]: both ends are clamped to
    [0 .. length] and swapped when [a > b]. *)
Definition clamp (s : jsstr) (i : Z) : nat :=
  Z.to_nat (Z.min (Z.max i 0) (Z.of_nat (length s))).

Definition substring (s : jsstr) (a b : Z) : jsstr :=
  let lo := Nat.min (clamp s a) (clamp s b) in
  let hi := Nat.max (clamp s a) (clamp s b) in
  take (hi - lo) (drop lo s).

(** [String.prototype.slice(-2)]: the last two units (the whole
    string when it is shorter). *)
Definition slice_last2 (s : jsstr) : jsstr := drop (length s - 2) s.

(** White space and line terminators, as [trim] strips them. *)
Definition is_space (c : cu) : bool :=
  (N.leb 9 c && N.leb c 13) || N.eqb c 32 || N.eqb c 160 || N.eqb c 5760
  || (N.leb 8192 c && N.leb c 8202) || N.eqb c 8232 || N.eqb c 8233
  || N.eqb c 8239 || N.eqb c 8287 || N.eqb c 12288 || N.eqb c 65279.

Fixpoint trimStart (s : jsstr) : jsstr :=
  match s with
  | [] => []
  | c :: r => if is_space c then trimStart r else s
  end.

Fixpoint trimEnd (s : jsstr) : jsstr :=
  match s with
  | [] => []
  | c :: r =>
      match trimEnd r with
      | [] => if is_space c then [] else [c]
      | r' => c :: r'
      end
  end.

Definition trim (s : jsstr) : jsstr := trimEnd (trimStart s).

(** [s.replace(/:/g, '')]: every colon removed. *)
Fixpoint removeColons (s : jsstr) : jsstr :=
  match s with
  | [] => []
  | c :: r => if N.eqb c COLON then removeColons r else c :: removeColons r
  end.

(** Decimal digits of a natural number, as [String(n)] prints a
    non-negative integer. *)
Fixpoint digits_fuel (fuel : nat) (n : N) (acc : jsstr) : jsstr :=
  match fuel with
  | O => acc
  | S f =>
      let acc' := (48 + n mod 10) :: acc in
      if N.ltb n 10 then acc' else digits_fuel f (n / 10) acc'
  end.

Definition decimal (n : N) : jsstr := digits_fuel (S (N.to_nat (N.log2 n))) n [].

Definition is_digit (c : cu) : bool := N.leb 48 c && N.leb c 57.

(** The number a run of decimal digits denotes. *)
Definition digits_value (ds : jsstr) : N :=
  fold_left (fun acc d => 10 * acc + (d - 48)) ds 0.

End JsString.

Export JsString.

(** ** Values *)

Module JsValue.

(** A JSON number token, kept as the exact decimal it spells:
    [(-1)^neg * mant * 10^exp10].  The rounding of [Number] to a
    double is not part of the model. *)
Record jsnum := { num_neg : bool; num_mant : N; num_exp10 : Z }.

(** The values [JSON.parse] can produce, and [undefined].  An object
    lists its own properties in insertion order; that JavaScript
    enumerates integer-like keys before the others is left out: the
    keys the servers add are not integer-like and follow the keys an
    object already has either way. *)
Inductive jsval :=
| JUndefined
| JNull
| JBool (b : bool)
| JNum (n : jsnum)
| JStr (s : jsstr)
| JArr (xs : list jsval)
| JObj (kvs : list (jsstr * jsval)).

Definition str_eqb (a b : jsstr) : bool := bool_decide (a = b).

(** Own-property lookup in an object's property list. *)
Fixpoint obj_get (kvs : list (jsstr * jsval)) (k : jsstr) : option jsval :=
  match kvs with
  | [] => None
  | (k', v) :: r => if str_eqb k' k then Some v else obj_get r k
  end.

(** Property definition: an existing key keeps its place and takes
    the new value, a new key goes last. *)
Fixpoint obj_set (kvs : list (jsstr * jsval)) (k : jsstr) (v : jsval)
  : list (jsstr * jsval) :=
  match kvs with
  | [] => [(k, v)]
  | (k', v') :: r =>
      if str_eqb k' k then (k', v) :: r else (k', v') :: obj_set r k v
  end.

Definition obj_keys (kvs : list (jsstr * jsval)) : list jsstr := kvs.*1.

(** [v[k]] for a value that is neither [null] nor [undefined] and a
    key that is no built-in property of strings, numbers, booleans
    or arrays (the servers read only such keys): the own property of
    an object, [undefined] otherwise. *)
Definition get (v : jsval) (k : jsstr) : jsval :=
  match v with
  | JObj kvs => default JUndefined (obj_get kvs k)
  | _ => JUndefined
  end.

(** [arr[i]]: [undefined] out of range. *)
Definition index (xs : list jsval) (i : nat) : jsval :=
  default JUndefined (xs !! i).

(** ToBoolean. *)
Definition truthy (v : jsval) : bool :=
  match v with
  | JUndefined | JNull => false
  | JBool b => b
  | JNum n => negb (N.eqb (num_mant n) 0)
  | JStr s => negb (bool_decide (s = []))
  | JArr _ | JObj _ => true
  end.

(** [a || b] *)
Definition js_or (a b : jsval) : jsval := if truthy a then a else b.

(** [a ?? b] *)
Definition nullish (a b : jsval) : jsval :=
  match a with
  | JUndefined | JNull => b
  | _ => a
  end.

Definition is_object (v : jsval) : bool :=
  match v with JObj _ => true | _ => false end.

End JsValue.

Export JsValue.

(** ** JSON.parse *)

Module Json.

Definition is_json_ws (c : cu) : bool :=
  N.eqb c 32 || N.eqb c 9 || N.eqb c 10 || N.eqb c 13.

Fixpoint skip_ws (s : jsstr) : jsstr :=
  match s with
  | [] => []
  | c :: r => if is_json_ws c then skip_ws r else s
  end.

Fixpoint strip_prefix (p s : jsstr) : option jsstr :=
  match p, s with
  | [], _ => Some s
  | a :: p', b :: s' => if N.eqb a b then strip_prefix p' s' else None
  | _ :: _, [] => None
  end.

Definition hex_val (c : cu) : option N :=
  if is_digit c then Some (c - 48)
  else if N.leb 97 c && N.leb c 102 then Some (c - 87)
  else if N.leb 65 c && N.leb c 70 then Some (c - 55)
  else None.

Definition hex4 (a b c d : cu) : option cu :=
  match hex_val a, hex_val b, hex_val c, hex_val d with
  | Some x, Some y, Some z, Some w => Some (((x * 16 + y) * 16 + z) * 16 + w)
  | _, _, _, _ => None
  end.

(** The unit a one-letter escape stands for. *)
Definition unescape (e : cu) : option cu :=
  if N.eqb e 34 then Some 34        (* quote *)
  else if N.eqb e 92 then Some 92   (* backslash *)
  else if N.eqb e 47 then Some 47   (* solidus *)
  else if N.eqb e 98 then Some 8    (* b: backspace *)
  else if N.eqb e 102 then Some 12  (* f: form feed *)
  else if N.eqb e 110 then Some 10  (* n: line feed *)
  else if N.eqb e 114 then Some 13  (* r: carriage return *)
  else if N.eqb e 116 then Some 9   (* t: tab *)
  else None.

(** The characters of a string token after its opening quote, up to
    and including the closing quote. *)
Fixpoint parse_string_chars (s : jsstr) : option (jsstr * jsstr) :=
  match s with
  | [] => None
  | c :: r =>
      if N.eqb c 34 then Some ([], r)
      else if N.eqb c 92 then
        match r with
        | [] => None
        | e :: r1 =>
            if N.eqb e 117 then
              match r1 with
              | h1 :: h2 :: h3 :: h4 :: r2 =>
                  match hex4 h1 h2 h3 h4 with
                  | Some x =>
                      match parse_string_chars r2 with
                      | Some (cs, rest) => Some (x :: cs, rest)
                      | None => None
                      end
                  | None => None
                  end
              | _ => None
              end
            else
              match unescape e with
              | Some x =>
                  match parse_string_chars r1 with
                  | Some (cs, rest) => Some (x :: cs, rest)
                  | None => None
                  end
              | None => None
              end
        end
      else if N.ltb c 32 then None
      else
        match parse_string_chars r with
        | Some (cs, rest) => Some (c :: cs, rest)
        | None => None
        end
  end.

Fixpoint take_digits (s : jsstr) : jsstr * jsstr :=
  match s with
  | [] => ([], [])
  | c :: r =>
      if is_digit c then let '(ds, rest) := take_digits r in (c :: ds, rest)
      else ([], s)
  end.

(** A number token: [-? int frac? exp?]. *)
Definition parse_number (s : jsstr) : option (jsnum * jsstr) :=
  let '(neg, s1) :=
    match s with
    | c :: r => if N.eqb c 45 then (true, r) else (false, s)
    | [] => (false, s)
    end in
  let '(ds, s2) := take_digits s1 in
  match ds with
  | [] => None
  | d :: ds' =>
      if N.eqb d 48 && negb (bool_decide (ds' = [])) then None
      else
        let frac :=
          match s2 with
          | c :: r =>
              if N.eqb c 46 then
                let '(fs, s3) := take_digits r in
                match fs with [] => None | _ => Some (fs, s3) end
              else Some ([], s2)
          | [] => Some ([], s2)
          end in
        match frac with
        | None => None
        | Some (fs, s3) =>
            let expo :=
              match s3 with
              | c :: r =>
                  if N.eqb c 101 || N.eqb c 69 then
                    let '(eneg, r1) :=
                      match r with
                      | sg :: r' =>
                          if N.eqb sg 45 then (true, r')
                          else if N.eqb sg 43 then (false, r')
                          else (false, r)
                      | [] => (false, r)
                      end in
                    let '(es, s4) := take_digits r1 in
                    match es with
                    | [] => None
                    | _ =>
                        let e := Z.of_N (digits_value es) in
                        Some ((if eneg then (- e)%Z else e), s4)
                    end
                  else Some (0%Z, s3)
              | [] => Some (0%Z, s3)
              end in
            match expo with
            | None => None
            | Some (e, s4) =>
                Some ({| num_neg := neg;
                         num_mant := digits_value (ds ++ fs);
                         num_exp10 := (e - Z.of_nat (length fs))%Z |}, s4)
            end
        end
  end.

(** Recursive descent over values, array elements and object
    members; [fuel] bounds the depth of the calls. *)
Fixpoint parse_value (fuel : nat) (s : jsstr) {struct fuel}
  : option (jsval * jsstr) :=
  match fuel with
  | O => None
  | S f =>
      match skip_ws s with
      | [] => None
      | c :: r =>
          if N.eqb c LBRACKET then
            match skip_ws r with
            | [] => None
            | c2 :: r2 =>
                if N.eqb c2 RBRACKET then Some (JArr [], r2)
                else
                  match parse_elems f r with
                  | Some (xs, rest) => Some (JArr xs, rest)
                  | None => None
                  end
            end
          else if N.eqb c 123 then
            match skip_ws r with
            | [] => None
            | c2 :: r2 =>
                if N.eqb c2 125 then Some (JObj [], r2)
                else
                  match parse_members f r [] with
                  | Some (kvs, rest) => Some (JObj kvs, rest)
                  | None => None
                  end
            end
          else if N.eqb c 34 then
            match parse_string_chars r with
            | Some (cs, rest) => Some (JStr cs, rest)
            | None => None
            end
          else if N.eqb c 116 then
            match strip_prefix (u "rue") r with
            | Some rest => Some (JBool true, rest)
            | None => None
            end
          else if N.eqb c 102 then
            match strip_prefix (u "alse") r with
            | Some rest => Some (JBool false, rest)
            | None => None
            end
          else if N.eqb c 110 then
            match strip_prefix (u "ull") r with
            | Some rest => Some (JNull, rest)
            | None => None
            end
          else
            match parse_number (c :: r) with
            | Some (n, rest) => Some (JNum n, rest)
            | None => None
            end
      end
  end
with parse_elems (fuel : nat) (s : jsstr) {struct fuel}
  : option (list jsval * jsstr) :=
  match fuel with
  | O => None
  | S f =>
      match parse_value f s with
      | None => None
      | Some (v, r) =>
          match skip_ws r with
          | [] => None
          | c :: r' =>
              if N.eqb c 44 then
                match parse_elems f r' with
                | Some (vs, rest) => Some (v :: vs, rest)
                | None => None
                end
              else if N.eqb c RBRACKET then Some ([v], r')
              else None
          end
      end
  end
with parse_members (fuel : nat) (s : jsstr) (acc : list (jsstr * jsval))
       {struct fuel} : option (list (jsstr * jsval) * jsstr) :=
  match fuel with
  | O => None
  | S f =>
      match skip_ws s with
      | [] => None
      | c :: r =>
          if N.eqb c 34 then
            match parse_string_chars r with
            | None => None
            | Some (k, r1) =>
                match skip_ws r1 with
                | [] => None
                | c1 :: r2 =>
                    if N.eqb c1 COLON then
                      match parse_value f r2 with
                      | None => None
                      | Some (v, r3) =>
                          let acc' := obj_set acc k v in
                          match skip_ws r3 with
                          | [] => None
                          | c3 :: r4 =>
                              if N.eqb c3 44 then parse_members f r4 acc'
                              else if N.eqb c3 125 then Some (acc', r4)
                              else None
                          end
                      end
                    else None
                end
            end
          else None
      end
  end.

(** [JSON.parse]: one value, white space around it, nothing else.
    [None] stands for the [SyntaxError] it throws.  One unit of fuel
    per code unit is enough (lemma [JSON_parse_fuel]). *)
Definition JSON_parse (s : jsstr) : option jsval :=
  match parse_value (S (length s)) s with
  | Some (v, rest) =>
      match skip_ws rest with
      | [] => Some v
      | _ :: _ => None
      end
  | None => None
  end.

End Json.

Export Json.

(** ** Thrown errors *)

Module Errors.

(** What the servers throw or reject with.  Each fixed message of
    the source has a constructor of its own. *)
Inductive exn :=
| EmptyResponse               (* 'AI model returned empty response' *)
| NoJsonArray                 (* 'AI response does not contain a valid JSON array' *)
| InvalidJson (text : jsstr)  (* 'AI response is not valid JSON: ' + parseError.message *)
| ParseFailed                 (* 'Failed to parse Ollama response' *)
| OllamaError (e : jsval)     (* `Ollama error: ${jsonResponse.error}` *)
| ConnectFailed (msg : jsstr) (* 'Failed to connect to Ollama: ' + error.message *)
| TypeError                   (* thrown by the runtime: property of null, call of a non-function *)
| ENOENT (path : jsstr)       (* fs: no such file or directory *)
| EACCES (path : jsstr)       (* fs: the operating system refuses the operation *)
| XlsxError.                  (* thrown inside the xlsx library *)

Inductive result (A : Type) :=
| Ok (a : A)
| Throw (e : exn).
Arguments Ok {A} a.
Arguments Throw {A} e.

#[export] Instance result_ret : MRet result := fun _ a => Ok a.
#[export] Instance result_bind : MBind result := fun _ _ f m =>
  match m with
  | Ok a => f a
  | Throw e => Throw e
  end.

(** [v[k]] and [v.k]: a [TypeError] on [null] and [undefined]. *)
Definition getProp (v : jsval) (k : jsstr) : result jsval :=
  match v with
  | JUndefined | JNull => Throw TypeError
  | _ => Ok (get v k)
  end.

End Errors.

Export Errors.

(** ** Inference client: the [end] handler of [callOllama] *)

Module Client.

(** [server.js], first variant, lines 58-65: the reply is
    [jsonResponse.response], whatever it is. *)
Definition callOllama_end_simple (responseData : jsstr) : result jsval :=
  match JSON_parse responseData with
  | None => Throw ParseFailed
  | Some jsonResponse =>
      match getProp jsonResponse (u "response") with
      | Ok reply => Ok reply
      | Throw _ => Throw ParseFailed
      end
  end.

(** [server.js], second variant, lines 260-268:
    [resolve(jsonResponse.response ?? jsonResponse)]. *)
Definition callOllama_end_server (responseData : jsstr) : result jsval :=
  match JSON_parse responseData with
  | None => Throw ParseFailed
  | Some jsonResponse =>
      match getProp jsonResponse (u "response") with
      | Ok response => Ok (nullish response jsonResponse)
      | Throw _ => Throw ParseFailed
      end
  end.

(** [part_000], line 76: [jsonResponse && jsonResponse.error]. *)
Definition backend_error (jsonResponse : jsval) : bool :=
  truthy jsonResponse && truthy (get jsonResponse (u "error")).

(** [part_000], line 82: the first field present among [response],
    [output] and [result], the raw body otherwise. *)
Definition extractReply (jsonResponse : jsval) (responseData : jsstr)
  : result jsval :=
  response ← getProp jsonResponse (u "response");
  output ← (match response with
            | JUndefined | JNull => getProp jsonResponse (u "output")
            | _ => Ok response
            end);
  result_ ← (match output with
             | JUndefined | JNull => getProp jsonResponse (u "result")
             | _ => Ok output
             end);
  mret (nullish result_ (JStr responseData)).

(** [part_000], line 83:
    [!reply || (typeof reply === 'string' && reply.trim().length === 0)]. *)
Definition blank_reply (reply : jsval) : bool :=
  negb (truthy reply)
  || match reply with
     | JStr s => bool_decide (length (trim s) = 0%nat)
     | _ => false
     end.

(** [part_000], lines 65-93. *)
Definition callOllama_end (responseData : jsstr) : result jsval :=
  match JSON_parse responseData with
  | None => Throw ParseFailed
  | Some jsonResponse =>
      if backend_error jsonResponse
      then Throw (OllamaError (get jsonResponse (u "error")))
      else
        match extractReply jsonResponse responseData with
        | Throw _ => Throw ParseFailed
        | Ok reply =>
            if blank_reply reply then Throw EmptyResponse else Ok reply
        end
  end.

End Client.

(** ** Response extractor *)

Module Extractor.

(** Lines 273-279 of [part_000] (495-501 of [server.js]): the text
    from the first [[] to the last []], or the error. *)
Definition sliceArray (modelText : jsstr) : result jsstr :=
  let firstBracket := indexOf LBRACKET modelText in
  let lastBracket := lastIndexOf RBRACKET modelText in
  if negb (Z.eqb firstBracket (-1)) && negb (Z.eqb lastBracket (-1))
     && Z.ltb firstBracket lastBracket
  then Ok (substring modelText firstBracket (lastBracket + 1))
  else Throw NoJsonArray.

(** Lines 281-287 (503-509): [JSON.parse] under [try], the parser
    passed in. *)
Definition parseSlice (parse : jsstr → option jsval) (modelText : jsstr)
  : result jsval :=
  match parse modelText with
  | Some parsed => Ok parsed
  | None => Throw (InvalidJson modelText)
  end.

(** Lines 273-287 (495-509). *)
Definition extractWith (parse : jsstr → option jsval) (modelText : jsstr)
  : result jsval :=
  slice ← sliceArray modelText; parseSlice parse slice.

(** Lines 269-287 (491-509): [modelResult.trim()], the empty check,
    then the extraction.  [trim] is a method of strings only. *)
Definition parseReplyWith (parse : jsstr → option jsval) (modelResult : jsval)
  : result jsval :=
  match modelResult with
  | JStr s =>
      let modelText := trim s in
      match modelText with
      | [] => Throw EmptyResponse
      | _ :: _ => extractWith parse modelText
      end
  | _ => Throw TypeError
  end.

Definition extract : jsstr → result jsval := extractWith JSON_parse.
Definition parseReply : jsval → result jsval := parseReplyWith JSON_parse.

End Extractor.

Export Extractor.

(** ** Row reconciler *)

Module Reconciler.

(** A spreadsheet row: the properties of the object
    [sheet_to_json] builds for it. *)
Definition row := list (jsstr * jsval).

Definition Module_ : jsstr := u "Module".
Definition Summarized_Problem : jsstr := u "Summarized Problem".
Definition SummarizedProblem : jsstr := u "SummarizedProblem".
Definition Severity : jsstr := u "Severity".
Definition Severity_Reason : jsstr := u "Severity Reason".

(** [part_000], lines 291-297: the callback of [rows.map]. *)
Definition overlayRow (parsed : list jsval) (i : nat) (r : row) : result row :=
  let ai := js_or (index parsed i) (JObj []) in
  module ← getProp ai Module_;
  summarized ← (a ← getProp ai Summarized_Problem;
                if truthy a then Ok a else getProp ai SummarizedProblem);
  severity ← getProp ai Severity;
  mret (obj_set
          (obj_set
             (obj_set r Module_ (js_or module (JStr [])))
             Summarized_Problem (js_or summarized (JStr [])))
          Severity (js_or severity (JStr []))).

(** [Array.prototype.map] with a callback that may throw. *)
Fixpoint mapWithIndex {A B} (f : nat → A → result B) (i : nat) (l : list A)
  : result (list B) :=
  match l with
  | [] => Ok []
  | x :: r =>
      y ← f i x; ys ← mapWithIndex f (S i) r; mret (y :: ys)
  end.

(** [part_000], lines 290-298. *)
Definition mergeOverlay (rows : list row) (parsed : list jsval)
  : result (list row) :=
  mapWithIndex (overlayRow parsed) 0 rows.

(** [server.js], lines 511-512: [const merged = parsed]. *)
Definition mergeReplace (rows : list row) (parsed : jsval) : jsval := parsed.

End Reconciler.

Export Reconciler.

(** ** Output naming *)

Module Namer.

(** The fields of [new Date()] the server reads, in local time. *)
Record date := {
  getFullYear : Z;
  getMonth : N;      (* 0 .. 11 *)
  getDate : N;       (* 1 .. 31 *)
  getHours : N;
  getMinutes : N;
  getSeconds : N
}.

(** [String(n)] for an integer. *)
Definition numberToString (z : Z) : jsstr :=
  if (z <? 0)%Z then DASH :: decimal (Z.to_N (- z)) else decimal (Z.to_N z).

(** [('0' + n).slice(-2)] *)
Definition pad2 (n : N) : jsstr := slice_last2 (u "0" ++ decimal n).

(** [server.js], lines 521-527. *)
Definition datetime (now : date) : jsstr :=
  numberToString (getFullYear now)
    ++ pad2 (getMonth now + 1)
    ++ pad2 (getDate now) ++ u "-"
    ++ pad2 (getHours now)
    ++ pad2 (getMinutes now)
    ++ pad2 (getSeconds now).

Definition DEFAULT_MODEL : jsstr := u "gemma3:4b".

(** [server.js], line 380: [req.body.model || 'gemma3:4b']. *)
Definition modelOf (body_model : option jsstr) : jsstr :=
  match body_model with
  | Some (c :: m) => c :: m
  | Some [] | None => DEFAULT_MODEL
  end.

(** [server.js], line 528. *)
Definition processedFilename (model : jsstr) (now : date) (originalName : jsstr)
  : jsstr :=
  removeColons model ++ u "-" ++ datetime now ++ u "-" ++ originalName.

(** [part_000], line 307: [`processed-${Date.now()}-${originalName}`]. *)
Definition processedFilename_ms (nowMs : N) (originalName : jsstr) : jsstr :=
  u "processed-" ++ decimal nowMs ++ u "-" ++ originalName.

(** Lines 536 and 315: [`/downloads/${processedFilename}`]. *)
Definition downloadUrl (processedFilename : jsstr) : jsstr :=
  u "/downloads/" ++ processedFilename.

End Namer.

Export Namer.

(** ** Files and the spreadsheet handler *)

Module Handler.

(** The part of the file system the handler touches: the regular
    files, and the paths on which the operating system refuses a
    write or an unlink (missing directory, permissions, a lock). *)
Record fs (buffer : Type) := mkFs {
  files : gmap jsstr buffer;
  denied : gset jsstr
}.
Arguments mkFs {buffer} files denied.
Arguments files {buffer} f.
Arguments denied {buffer} f.

Section Fs.
Context {buffer : Type}.

Definition readFileSync (p : jsstr) (st : fs buffer) : result buffer :=
  match files st !! p with
  | Some b => Ok b
  | None => Throw (ENOENT p)
  end.

Definition writeFileSync (p : jsstr) (b : buffer) (st : fs buffer)
  : result (fs buffer) :=
  if decide (p ∈ denied st) then Throw (EACCES p)
  else Ok (mkFs (<[p := b]> (files st)) (denied st)).

Definition unlinkSync (p : jsstr) (st : fs buffer) : result (fs buffer) :=
  if decide (p ∈ denied st) then Throw (EACCES p)
  else match files st !! p with
       | Some _ => Ok (mkFs (delete p (files st)) (denied st))
       | None => Throw (ENOENT p)
       end.
End Fs.

(** [req.file] and the field of [req.body] the naming reads. *)
Record request := {
  file_path : jsstr;
  file_originalname : jsstr;
  body_model : option jsstr
}.

(** What the handler sends: [res.json({ success: true, downloadUrl,
    filename })], or [res.status(500).json({ success: false, error })]. *)
Inductive response :=
| Success (url filename : jsstr)
| Failure (status : N) (error : exn).

Section ProcessExcel.
Context {buffer : Type}.

(** The xlsx library and [path.join], which are not part of the
    repository: reading the first sheet of a workbook into rows
    ([readFile], [SheetNames[0]], [sheet_to_json]), writing a
    value as a one-sheet workbook ([json_to_sheet],
    [book_append_sheet], [write]), and joining two path segments. *)
Variable xlsx_decode : buffer → result (list row).
Variable xlsx_encode : jsval → result buffer.
Variable path_join : jsstr → jsstr → jsstr.

(** The outcome of [await callOllama(...)] is an input: [Ok] when
    the promise resolves, [Throw] when it rejects.  The prompt
    (lines 382-485) only decides what the backend is asked. *)

(** [server.js], lines 373-518: everything up to the workbook
    buffer. *)
Definition prepare (req : request) (reply : result jsval) (st : fs buffer)
  : result buffer :=
  workbook ← readFileSync (file_path req) st;
  rows ← xlsx_decode workbook;
  modelResult ← reply;
  parsed ← parseReply modelResult;
  xlsx_encode (mergeReplace rows parsed).

(** Lines 529-538 of [server.js] and 308-317 of [part_000], the same
    in both: write under [downloads], unlink the upload, then the
    values of the success answer. *)
Definition storeAs (name : jsstr) (req : request) (buf : buffer) (st : fs buffer)
  : fs buffer * result (jsstr * jsstr) :=
  let processedPath := path_join (u "downloads") name in
  match writeFileSync processedPath buf st with
  | Throw e => (st, Throw e)
  | Ok st1 =>
      match unlinkSync (file_path req) st1 with
      | Throw e => (st1, Throw e)
      | Ok st2 => (st2, Ok (downloadUrl name, name))
      end
  end.

(** The [try] / [catch] of the handler: [res.json] with the success
    answer, or [console.error] and [res.status(500).json].  The second
    component is what [console.error] received. *)
Definition answer (st : fs buffer) (prepared : result buffer)
    (store : buffer → fs buffer → fs buffer * result (jsstr * jsstr))
  : fs buffer * list exn * response :=
  match prepared with
  | Throw e => (st, [e], Failure 500 e)
  | Ok buf =>
      match store buf st with
      | (st', Ok (url, name)) => (st', [], Success url name)
      | (st', Throw e) => (st', [e], Failure 500 e)
      end
  end.

(** [server.js], lines 367-546. *)
Definition processExcel (req : request) (reply : result jsval) (now : date)
    (st : fs buffer) : fs buffer * list exn * response :=
  answer st (prepare req reply st)
    (storeAs (processedFilename (modelOf (body_model req)) now
                (file_originalname req)) req).

(** [part_000], lines 195-304.  The slice starts with [[], so what
    parses is an array; the other branch is not reached. *)
Definition prepare_overlay (req : request) (reply : result jsval)
    (st : fs buffer) : result buffer :=
  workbook ← readFileSync (file_path req) st;
  rows ← xlsx_decode workbook;
  modelResult ← reply;
  parsed ← parseReply modelResult;
  merged ← (match parsed with
            | JArr xs => mergeOverlay rows xs
            | _ => mergeOverlay rows []
            end);
  xlsx_encode (JArr (JObj <$> merged)).

(** [part_000], lines 189-325. *)
Definition processExcel_overlay (req : request) (reply : result jsval)
    (nowMs : N) (st : fs buffer) : fs buffer * list exn * response :=
  answer st (prepare_overlay req reply st)
    (storeAs (processedFilename_ms nowMs (file_originalname req)) req).

End ProcessExcel.

(** [path.join] on two segments that hold no separator and no dot
    segment: the separator between them. *)
Definition join_plain (a b : jsstr) : jsstr := a ++ u "/" ++ b.

End Handler.

Export Handler.

(** ** Spreadsheet codec *)

Module Codec.

(** The xlsx library's [sheet_to_json] and [json_to_sheet] are called
    by the servers but are no part of the repository; section 4.5 of
    the specification describes them, and the definitions below
    follow its words. *)

(** Modelled from the spec: a cell of a sheet, [None] when blank. *)
Definition cell := option jsval.

(** Modelled from the spec: a sheet is its header row, which names
    the columns, and its data rows. *)
Record sheet := {
  sheet_name : jsstr;
  header : list jsstr;
  body : list (list cell)
}.

(** Modelled from the spec: a workbook of several sheets. *)
Definition workbook := list sheet.

(** Modelled from the spec: the missing [sheet_to_json] on one data
    row.  The header row defines the column names; a blank cell
    decodes to the empty string. *)
Fixpoint decode_cells (hdr : list jsstr) (cells : list cell) (acc : row) : row :=
  match hdr with
  | [] => acc
  | h :: hs =>
      decode_cells hs (tail cells)
        (obj_set acc h (default (JStr []) (mjoin (head cells))))
  end.

(** Modelled from the spec: the missing [readFile] and
    [sheet_to_json].  Decoding reads the first sheet only. *)
Definition decode (wb : workbook) : list row :=
  match wb with
  | [] => []
  | s :: _ => (fun cells => decode_cells (header s) cells []) <$> body s
  end.

Definition add_key (acc : list jsstr) (k : jsstr) : list jsstr :=
  if bool_decide (k ∈ acc) then acc else acc ++ [k].

(** Modelled from the spec: the column order of the missing
    [json_to_sheet], the union of the keys across the rows in
    first-seen order. *)
Definition columns (rows : list row) : list jsstr :=
  foldl (fun acc r => foldl add_key acc (obj_keys r)) [] rows.

(** Modelled from the spec: the missing [json_to_sheet],
    [book_append_sheet] and [write].  Encoding writes a single sheet
    with a fixed name, one row per record. *)
Definition encode (rows : list row) : workbook :=
  [ {| sheet_name := u "Data";
       header := columns rows;
       body := (fun r => (fun k => obj_get r k) <$> columns rows) <$> rows |} ].

(** Modelled from the spec: the library calls of the handlers, over
    this model of a workbook. *)
Definition xlsx_decode (wb : workbook) : result (list row) := Ok (decode wb).

Definition props (v : jsval) : row :=
  match v with
  | JObj kvs => kvs
  | _ => []
  end.

(** Modelled from the spec: [json_to_sheet] on a parsed reply.  The
    specification does not say what an element that is no object
    gives; here it has no keys. *)
Definition xlsx_encode (v : jsval) : result workbook :=
  match v with
  | JArr xs => Ok (encode (props <$> xs))
  | _ => Throw XlsxError
  end.

End Codec.


(** ** Vocabulary of the statements *)

(** The text of an array: from its [[] to its []]. *)
Definition array_text (mid : jsstr) : jsstr := LBRACKET :: mid ++ [RBRACKET].

(** No [[], or no []], or no []] after the first [[]. *)
Definition no_bracket_pair (t : jsstr) : Prop :=
  LBRACKET ∉ t ∨ RBRACKET ∉ t
  ∨ (∃ pre rest, (t = pre ++ LBRACKET :: rest) ∧ (LBRACKET ∉ pre) ∧ (RBRACKET ∉ rest)).

(** Empty, or white space only. *)
Definition blank (s : jsstr) : Prop := Forall (fun c => is_space c = true) s.

(** A checkable form of [c ∉ s]. *)
Definition lacks (c : cu) (s : jsstr) : bool := forallb (fun x => negb (N.eqb x c)) s.

(** ** Vocabulary of the naming statements *)

(** [n] in exactly [w] decimal digits, zero-padded. *)
Fixpoint fixed_width (w : nat) (n : N) : jsstr :=
  match w with
  | O => []
  | S w' => fixed_width w' (n / 10) ++ [48 + n mod 10]
  end.

(** A date of the common era with a four-digit year. *)
Definition valid_date (now : date) : Prop :=
  (1000 ≤ getFullYear now ≤ 9999)%Z
  ∧ getMonth now ≤ 11
  ∧ 1 ≤ getDate now ≤ 31
  ∧ getHours now ≤ 23
  ∧ getMinutes now ≤ 59
  ∧ getSeconds now ≤ 59.

(** YYYYMMDD-HHMMSS *)
Definition stamp (now : date) : jsstr :=
  fixed_width 4 (Z.to_N (getFullYear now))
    ++ fixed_width 2 (getMonth now + 1)
    ++ fixed_width 2 (getDate now)
    ++ [DASH]
    ++ fixed_width 2 (getHours now)
    ++ fixed_width 2 (getMinutes now)
    ++ fixed_width 2 (getSeconds now).

(** The numbers below [b], to check a property of each by
    evaluation. *)
Definition below (b : N) : list N := N.of_nat <$> seq 0 (N.to_nat b).

(** ** Vocabulary of the handler statements *)

(** What a handler has done, given the file system [st1] it reached
    by writing its output under [name]: with the upload removed it
    has answered with the success values; with the removal refused it
    has logged the error and answered 500 with it. *)
Definition cleanup_outcome {buffer} (out : fs buffer * list exn * response)
    (st1 : fs buffer) (req : request) (name : jsstr) : Prop :=
  match unlinkSync (file_path req) st1 with
  | Ok st2 =>
      out = (st2, [], Success (downloadUrl name) name)
      ∧ files st2 !! file_path req = None
  | Throw e => out = (st1, [e], Failure 500 e)
  end.

(** ** Sample data *)

Module Sample.

(** The reply of the specification's end-to-end example. *)
Definition reply_pre : jsstr := u "Sure, here is the result:" ++ [LF].
Definition reply_mid : jsstr :=
  q "{'Module':'Battery','Summarized Problem':'Battery drains rapidly, losing about 20% per hour.','Severity':'High'}".
Definition reply_post : jsstr := LF :: u "Let me know if you need more.".
Definition reply : jsstr := reply_pre ++ array_text reply_mid ++ reply_post.

Definition reply_record : jsval :=
  JObj [ (u "Module", JStr (u "Battery"));
         (u "Summarized Problem",
          JStr (u "Battery drains rapidly, losing about 20% per hour."));
         (u "Severity", JStr (u "High")) ].

(** Its input row. *)
Definition input_row : row :=
  [ (u "Title", JStr (u "[X][Y] battery drains fast"));
    (u "Problem", JStr (u "loses 20% per hour")) ].

(** A reply whose trailing prose holds a bracket of its own. *)
Definition bracket_prose_reply : jsstr :=
  u "Rows: " ++ q "['a', 'b']" ++ u " (see [notes])".

Definition now : date :=
  {| getFullYear := 2025; getMonth := 0; getDate := 5;
     getHours := 9; getMinutes := 3; getSeconds := 7 |}.

(** An upload of one sheet with the example's row. *)
Definition upload : Codec.workbook :=
  [ {| Codec.sheet_name := u "Sheet1";
       Codec.header := [u "Title"; u "Problem"];
       Codec.body := [ [ Some (JStr (u "[X][Y] battery drains fast"));
                         Some (JStr (u "loses 20% per hour")) ] ] |} ].

Definition req : request :=
  {| file_path := u "uploads/1730000000000-report.xlsx";
     file_originalname := u "report.xlsx";
     body_model := Some (u "gemma3:4b") |}.

(** The upload is in place; in [fs_locked] the operating system
    refuses to remove it. *)
Definition fs_ready : fs Codec.workbook :=
  mkFs {[ file_path req := upload ]} ∅.
Definition fs_locked : fs Codec.workbook :=
  mkFs {[ file_path req := upload ]} {[ file_path req ]}.

(** A workbook whose only sheet has a header row and no data row. *)
Definition header_only : Codec.workbook :=
  [ {| Codec.sheet_name := u "Sheet1";
       Codec.header := [u "Title"; u "Problem"];
       Codec.body := [] |} ].

(** The workbook [server.js] writes for the example's reply. *)
Definition output : Codec.workbook :=
  Codec.encode [ [ (u "Module", JStr (u "Battery"));
                   (u "Summarized Problem",
                    JStr (u "Battery drains rapidly, losing about 20% per hour."));
                   (u "Severity", JStr (u "High")) ] ].

Definition output_path : jsstr :=
  u "downloads/gemma34b-20250105-090307-report.xlsx".

End Sample.

(** ** Vocabulary of the reconciliation statements *)

(** Field [k] of AI record [i]: [None] when the record is absent, is
    no object, or lacks the field. *)
Definition ai_field (parsed : list jsval) (i : nat) (k : jsstr) : option jsval :=
  match parsed !! i with
  | Some (JObj kvs) => obj_get kvs k
  | _ => None
  end.

(** The value when there is one and it is truthy, the empty string
    otherwise. *)
Definition or_empty (o : option jsval) : jsval :=
  match o with
  | Some v => if truthy v then v else JStr []
  | None => JStr []
  end.

(** The first of two fields that holds a truthy value. *)
Definition first_truthy (a b : option jsval) : option jsval :=
  match a with
  | Some v => if truthy v then a else b
  | None => b
  end.

(** The keys the overlay writes. *)
Definition overlay_keys : list jsstr := [Module_; Summarized_Problem; Severity].

(** ** Upload naming *)

Module Upload.

(** [server.js], lines 21-23 and 228-230, and [part_000], lines 23-25:
    the name multer stores an upload under,
    [Date.now() + '-' + file.originalname].  [Date.now()] is an
    integer below 2^53, which prints in plain decimal. *)
Definition uploadFilename (nowMs : N) (originalname : jsstr) : jsstr :=
  decimal nowMs ++ u "-" ++ originalname.

End Upload.

Export Upload.

(** ** Text routes and prompts *)

Module Routes.

(** The fields of [req.body] the text routes read, as the page and a
    multipart form send them: each a string, or absent. *)
Record textBody := {
  text_ : option jsstr;
  processingType_ : option jsstr;
  customPrompt_ : option jsstr;
  model_ : option jsstr
}.

(** [field || d] for a field that is a string or absent. *)
Definition or_default (field : option jsstr) (d : jsstr) : jsstr :=
  match field with
  | Some (c :: s) => c :: s
  | Some [] | None => d
  end.

(** [`${field}`] for a field that is a string or absent. *)
Definition template (field : option jsstr) : jsstr :=
  match field with
  | Some s => s
  | None => u "undefined"
  end.

(** What a text route sends: [res.json({ success: true, result,
    inputLength })], [res.status(400).json({ error })], or
    [res.status(500).json({ error: error.message || ... })]. *)
Inductive textResponse :=
| TextOk (result_ : jsval) (inputLength : nat)
| BadRequest (error : jsstr)
| ServerError (error : exn).

Definition BLANK_LINE : jsstr := [LF; LF].

Definition SUMMARIZE : jsstr :=
  u "Please provide a concise summary of the following text:".
Definition ANALYZE : jsstr :=
  u "Please analyze the following text and provide key insights:".
Definition EXTRACT : jsstr :=
  u "Please extract the key points and important information from the following text:".
Definition TRANSLATE : jsstr :=
  u "Please translate the following text to English (if it's not already in English, otherwise keep it as is):".
Definition QUESTIONS : jsstr :=
  u "Based on the following text, generate 5 important questions and provide answers:".

(** [server.js], first variant, lines 99-120 and 150-171: the
    [switch] on the processing type. *)
Definition fullPrompt_simple (processingType customPrompt : option jsstr)
    (inputText : jsstr) : jsstr :=
  match processingType with
  | None => inputText
  | Some t =>
      if str_eqb t (u "summarize") then SUMMARIZE ++ BLANK_LINE ++ inputText
      else if str_eqb t (u "analyze") then ANALYZE ++ BLANK_LINE ++ inputText
      else if str_eqb t (u "extract") then EXTRACT ++ BLANK_LINE ++ inputText
      else if str_eqb t (u "translate") then TRANSLATE ++ BLANK_LINE ++ inputText
      else if str_eqb t (u "questions") then QUESTIONS ++ BLANK_LINE ++ inputText
      else if str_eqb t (u "custom")
           then template customPrompt ++ BLANK_LINE ++ inputText
      else inputText
  end.

(** [server.js], second variant, lines 297-304 and 338-345, and
    [part_000], lines 120-127 and 160-167. *)
Definition fullPrompt (processingType customPrompt inputText : jsstr) : jsstr :=
  if str_eqb processingType (u "custom")
  then customPrompt ++ BLANK_LINE ++ inputText
  else inputText.

Definition SIMPLE_MODEL : jsstr := u "qwen2.5:3b".

Section TextRoutes.

(** [callOllama] as seen by a route: the outcome of the promise for a
    prompt and a model. *)
Variable ollama : jsstr → jsstr → result jsval.

(** [server.js], first variant, lines 140-187: [/api/process-text]. *)
Definition processText_simple (b : textBody) : textResponse :=
  match text_ b with
  | None | Some [] => BadRequest (u "No text provided")
  | Some text =>
      match ollama (fullPrompt_simple (processingType_ b) (customPrompt_ b) text)
              SIMPLE_MODEL with
      | Ok result_ => TextOk result_ (length text)
      | Throw e => ServerError e
      end
  end.

(** [server.js], second variant, lines 286-319: [/api/process/text]. *)
Definition processText (b : textBody) : textResponse :=
  let processingType := or_default (processingType_ b) (u "custom") in
  let customPrompt := or_default (customPrompt_ b) [] in
  let model := modelOf (model_ b) in
  match text_ b with
  | None | Some [] => BadRequest (u "No text provided")
  | Some inputText =>
      match ollama (fullPrompt processingType customPrompt inputText) model with
      | Ok result_ => TextOk result_ (length inputText)
      | Throw e => ServerError e
      end
  end.


Context {buffer : Type}.

(** [fs.readFileSync(path, 'utf-8')] decodes the file; the decoder is
    Node's. *)
Variable utf8 : buffer → jsstr.

(** [server.js], second variant, lines 333-352, and [part_000], lines
    156-174: an upload that is no spreadsheet.  The file is read and
    unlinked, then the model is called. *)
Definition processPlainFile (model : jsstr) (req : request) (b : textBody)
    (st : fs buffer) : fs buffer * textResponse :=
  let processingType := or_default (processingType_ b) (u "custom") in
  let customPrompt := or_default (customPrompt_ b) [] in
  match readFileSync (file_path req) st with
  | Throw e => (st, ServerError e)
  | Ok content =>
      let inputText := utf8 content in
      match unlinkSync (file_path req) st with
      | Throw e => (st, ServerError e)
      | Ok st1 =>
          match ollama (fullPrompt processingType customPrompt inputText) model with
          | Ok result_ => (st1, TextOk result_ (length inputText))
          | Throw e => (st1, ServerError e)
          end
      end
  end.

(** [server.js], first variant, lines 78-137: [/api/process], fed by
    an upload or, without one, by [req.body.text]. *)
Definition process_simple (file : option request) (b : textBody) (st : fs buffer)
  : fs buffer * textResponse :=
  let input :=
    match file with
    | Some req =>
        match readFileSync (file_path req) st with
        | Throw e => (st, Throw e)
        | Ok content =>
            match unlinkSync (file_path req) st with
            | Throw e => (st, Throw e)
            | Ok st1 => (st1, Ok (Some (utf8 content)))
            end
        end
    | None =>
        match text_ b with
        | Some (c :: s) => (st, Ok (Some (c :: s)))
        | Some [] | None => (st, Ok None)
        end
    end in
  match input with
  | (st', Throw e) => (st', ServerError e)
  | (st', Ok None) => (st', BadRequest (u "No file or text provided"))
  | (st', Ok (Some inputText)) =>
      let processingType := or_default (processingType_ b) (u "custom") in
      let customPrompt := or_default (customPrompt_ b) [] in
      match ollama (fullPrompt_simple (Some processingType) (Some customPrompt)
                      inputText) SIMPLE_MODEL with
      | Ok result_ => (st', TextOk result_ (length inputText))
      | Throw e => (st', ServerError e)
      end
  end.

End TextRoutes.

(** A backend that answers a prompt and a model with a body, seen
    through the [end] handler of a client. *)
Definition viaClient (onEnd : jsstr → result jsval)
    (backend : jsstr → jsstr → jsstr) : jsstr → jsstr → result jsval :=
  fun prompt model => onEnd (backend prompt model).

End Routes.

Export Routes.

(** ** Model list and health *)

Module Status.

(** [server.js], lines 557-569: the [end] handler of [/api/models].
    [None] stands for the rejected promise, whatever the error. *)
Definition models_end (statusCode : N) (data : jsstr) : option (list jsval) :=
  if N.eqb statusCode 200 then
    match JSON_parse data with
    | None => None
    | Some json =>
        match getProp json (u "models") with
        | Throw _ => None
        | Ok models =>
            if truthy models then
              match models with
              | JArr ms =>
                  mapM (fun m => match getProp m (u "name") with
                                 | Ok name => Some name
                                 | Throw _ => None
                                 end) ms
              | _ => None
              end
            else Some []
        end
    end
  else None.

(** What [/api/models] sends: [{ success: true, models }], or status
    500 with [{ success: false, error: 'Failed to fetch models' }]. *)
Inductive modelsResponse :=
| ModelsOk (models : list jsval)
| ModelsFailed.

(** [server.js], lines 551-584.  The backend's answer is its status
    and body, or [None] when the request errors or times out. *)
Definition modelsRoute (answer : option (N * jsstr)) : modelsResponse :=
  match answer with
  | None => ModelsFailed
  | Some (statusCode, data) =>
      match models_end statusCode data with
      | Some models => ModelsOk models
      | None => ModelsFailed
      end
  end.

(** The body of a health answer, with its HTTP status. *)
Record health := {
  http : N;
  status_ : jsstr;
  ollama_ : jsstr
}.

(** [server.js], lines 587-610, and [part_000], lines 330-353.  The
    probe is the status of the backend's answer, or [None] when the
    request errors or times out. *)
Definition health_server (probe : option N) : health :=
  let response := match probe with
                  | Some statusCode => N.eqb statusCode 200
                  | None => false
                  end in
  if response
  then {| http := 200; status_ := u "ok"; ollama_ := u "connected" |}
  else {| http := 200; status_ := u "ok"; ollama_ := u "disconnected" |}.

(** [server.js], first variant, lines 190-198: the health route calls
    the model. *)
Definition health_simple (hello : result jsval) : health :=
  match hello with
  | Ok _ => {| http := 200; status_ := u "ok"; ollama_ := u "connected" |}
  | Throw _ => {| http := 503; status_ := u "error"; ollama_ := u "disconnected" |}
  end.

(** [public/script.js], lines 306-322 and 324-327: what the page
    shows for a health answer, [None] when the fetch fails. *)
Definition checkOllamaConnection (data : option health) : jsstr * jsstr :=
  match data with
  | Some d =>
      if str_eqb (status_ d) (u "ok")
      then (u "connected", u "Ollama Connected")
      else (u "error", u "Ollama Disconnected")
  | None => (u "error", u "Ollama Not Running")
  end.

End Status.

Export Status.
(** * Properties *)

(** ** Strings *)

Section StringFacts.

Implicit Types (c : cu) (s pre post : jsstr).

Lemma indexOf_range c s : (-1 ≤ indexOf c s < Z.of_nat (length s))%Z.
Proof.
  induction s as [|x r IH]; simpl; [lia|].
  destruct (N.eqb x c); [lia|].
  destruct (Z.eqb_spec (indexOf c r) (-1)); lia.
Qed.

Lemma indexOf_absent c s : c ∉ s → indexOf c s = (-1)%Z.
Proof.
  induction s as [|x r IH]; simpl; [done|].
  intros [Hx Hr]%not_elem_of_cons.
  destruct (N.eqb_spec x c); [congruence|].
  rewrite IH by done. done.
Qed.

Lemma indexOf_present c s : c ∈ s → indexOf c s ≠ (-1)%Z.
Proof.
  induction s as [|x r IH]; simpl; [by intros ?%elem_of_nil|].
  intros [->|Hr]%elem_of_cons.
  - rewrite N.eqb_refl. lia.
  - destruct (N.eqb x c); [lia|].
    specialize (IH Hr). pose proof (indexOf_range c r).
    destruct (Z.eqb_spec (indexOf c r) (-1)); lia.
Qed.

Lemma indexOf_first c pre post :
  c ∉ pre → indexOf c (pre ++ c :: post) = Z.of_nat (length pre).
Proof.
  induction pre as [|x r IH]; simpl.
  - intros _. by rewrite N.eqb_refl.
  - intros [Hx Hr]%not_elem_of_cons.
    destruct (N.eqb_spec x c); [congruence|].
    rewrite IH by done.
    destruct (Z.eqb_spec (Z.of_nat (length r)) (-1)); lia.
Qed.

Lemma lastIndexOf_range c s : (-1 ≤ lastIndexOf c s < Z.of_nat (length s))%Z.
Proof.
  induction s as [|x r IH]; simpl; [lia|].
  destruct (Z.eqb_spec (lastIndexOf c r) (-1)); [|lia].
  destruct (N.eqb x c); lia.
Qed.

Lemma lastIndexOf_absent c s : c ∉ s → lastIndexOf c s = (-1)%Z.
Proof.
  induction s as [|x r IH]; simpl; [done|].
  intros [Hx Hr]%not_elem_of_cons.
  rewrite IH by done. simpl.
  destruct (N.eqb_spec x c); [congruence|done].
Qed.

Lemma lastIndexOf_present c s : c ∈ s → lastIndexOf c s ≠ (-1)%Z.
Proof.
  induction s as [|x r IH]; simpl; [by intros ?%elem_of_nil|].
  intros Hin. pose proof (lastIndexOf_range c r).
  destruct (Z.eqb_spec (lastIndexOf c r) (-1)) as [E|E]; [|lia].
  apply elem_of_cons in Hin as [->|Hr].
  - rewrite N.eqb_refl. lia.
  - by apply IH in Hr.
Qed.

Lemma lastIndexOf_last c pre post :
  c ∉ post → lastIndexOf c (pre ++ c :: post) = Z.of_nat (length pre).
Proof.
  intros Hpost. induction pre as [|x r IH]; simpl.
  - rewrite lastIndexOf_absent by done. simpl. by rewrite N.eqb_refl.
  - rewrite IH.
    destruct (Z.eqb_spec (Z.of_nat (length r)) (-1)); lia.
Qed.

Lemma lastIndexOf_app_absent c s post :
  c ∉ post → lastIndexOf c (s ++ post) = lastIndexOf c s.
Proof.
  intros Hpost. induction s as [|x r IH]; simpl.
  - by apply lastIndexOf_absent.
  - by rewrite IH.
Qed.

Lemma lastIndexOf_app_present c s post :
  c ∈ post →
  lastIndexOf c (s ++ post) = (Z.of_nat (length s) + lastIndexOf c post)%Z.
Proof.
  intros Hpost. pose proof (lastIndexOf_range c post).
  pose proof (lastIndexOf_present c post Hpost).
  induction s as [|x r IH]; simpl; [lia|].
  rewrite IH.
  destruct (Z.eqb_spec (Z.of_nat (length r) + lastIndexOf c post) (-1)); lia.
Qed.

Lemma substring_middle pre mid post :
  substring (pre ++ mid ++ post) (Z.of_nat (length pre))
    (Z.of_nat (length pre) + Z.of_nat (length mid)) = mid.
Proof.
  unfold substring, clamp. rewrite !length_app.
  replace (Z.to_nat _) with (length pre) by lia.
  replace (Z.to_nat _) with (length pre + length mid)%nat by lia.
  rewrite Nat.min_l, Nat.max_r by lia.
  rewrite drop_app_length.
  replace (length pre + length mid - length pre)%nat with (length mid) by lia.
  by rewrite take_app_length.
Qed.

Lemma trimStart_app c pre s :
  is_space c = false → trimStart (pre ++ c :: s) = trimStart pre ++ c :: s.
Proof.
  intros Hc. induction pre as [|x r IH]; simpl.
  - by rewrite Hc.
  - destruct (is_space x); [apply IH|done].
Qed.

Lemma trimEnd_cons c s :
  is_space c = false → trimEnd (c :: s) = c :: trimEnd s.
Proof. intros Hc. simpl. rewrite Hc. by destruct (trimEnd s). Qed.

Lemma trimEnd_app c pre post :
  is_space c = false → trimEnd (pre ++ c :: post) = pre ++ c :: trimEnd post.
Proof.
  intros Hc. induction pre as [|x r IH].
  - by apply trimEnd_cons.
  - change ((x :: r) ++ c :: post) with (x :: (r ++ c :: post)).
    simpl. rewrite IH. by destruct r.
Qed.

Lemma elem_of_trimStart c s : c ∈ trimStart s → c ∈ s.
Proof.
  induction s as [|x r IH]; simpl; [done|].
  destruct (is_space x); [|done].
  intros ?%IH. apply elem_of_cons. by right.
Qed.

Lemma elem_of_trimEnd c s : c ∈ trimEnd s → c ∈ s.
Proof.
  induction s as [|x r IH]; simpl; [done|].
  destruct (trimEnd r) as [|y r'] eqn:E.
  - destruct (is_space x); [by intros ?%elem_of_nil|].
    intros ->%list_elem_of_singleton. apply elem_of_cons. by left.
  - intros [->|H]%elem_of_cons; apply elem_of_cons; [by left|].
    right. apply IH, H.
Qed.

Lemma trim_blank s : trim s = [] ↔ blank s.
Proof.
  unfold trim, blank. split.
  - induction s as [|x r IH]; simpl; [done|].
    destruct (is_space x) eqn:Hx.
    + intros H. constructor; auto.
    + rewrite trimEnd_cons by done. done.
  - induction 1 as [|x r Hx _ IH]; simpl; [done|]. by rewrite Hx.
Qed.

End StringFacts.

Lemma lacks_spec c s : lacks c s = true → c ∉ s.
Proof.
  induction s as [|x r IH]; simpl; [intros _; apply not_elem_of_nil|].
  intros [Hx Hr]%andb_prop. apply not_elem_of_cons. split; [|by apply IH].
  intros ->. by rewrite N.eqb_refl in Hx.
Qed.

Lemma indexOf_split c s :
  indexOf c s ≠ (-1)%Z →
  ∃ pre rest, (s = pre ++ c :: rest) ∧ (c ∉ pre)
              ∧ (indexOf c s = Z.of_nat (length pre)).
Proof.
  induction s as [|x r IH]; simpl; [done|].
  destruct (N.eqb_spec x c) as [->|Hne].
  - intros _. exists [], r. split_and!; [done|apply not_elem_of_nil|done].
  - destruct (Z.eqb_spec (indexOf c r) (-1)) as [E|E]; [done|].
    intros _. destruct (IH E) as (pre & rest & -> & Hpre & Hi).
    exists (x :: pre), rest. split_and!; [done| |simpl; lia].
    apply not_elem_of_cons. split; [congruence|done].
Qed.

(** ** JSON.parse *)

Section ParserFuel.

Implicit Types (s r rest : jsstr).

Ltac split_match :=
  match goal with
  | H : context [match ?x with _ => _ end] |- _ =>
      lazymatch x with
      | context [match _ with _ => _ end] => fail
      | _ => destruct x eqn:?
      end
  end.

Lemma skip_ws_length s : (length (skip_ws s) ≤ length s)%nat.
Proof.
  induction s as [|c r IH]; simpl; [lia|].
  destruct (is_json_ws c); simpl; lia.
Qed.

Lemma skip_ws_cons s c r : skip_ws s = c :: r → (length r < length s)%nat.
Proof.
  intros H. pose proof (skip_ws_length s) as Hl. rewrite H in Hl. simpl in Hl. lia.
Qed.

Lemma strip_prefix_length p s rest :
  strip_prefix p s = Some rest → (length rest ≤ length s)%nat.
Proof.
  revert s. induction p as [|a p IH]; intros s; simpl.
  - intros [= <-]. lia.
  - destruct s as [|b s']; [done|]. destruct (N.eqb a b); [|done].
    intros ?%IH. simpl. lia.
Qed.

Lemma take_digits_length s ds rest :
  take_digits s = (ds, rest) → length s = (length ds + length rest)%nat.
Proof.
  revert ds rest. induction s as [|c r IH]; intros ds rest; simpl.
  - by intros [= <- <-].
  - destruct (is_digit c).
    + destruct (take_digits r) as [ds' rest'] eqn:E. intros [= <- <-].
      rewrite (IH _ _ eq_refl). simpl. lia.
    + intros [= <- <-]. simpl. lia.
Qed.

Lemma parse_number_length s n rest :
  parse_number s = Some (n, rest) → (length rest < length s)%nat.
Proof.
  unfold parse_number. intros H.
  repeat (split_match; simplify_eq).
  all: simplify_eq.
  all: repeat match goal with
         | E : take_digits _ = _ |- _ => apply take_digits_length in E
         end.
  all: simpl in *; lia.
Qed.

Lemma parse_string_chars_length s cs rest :
  parse_string_chars s = Some (cs, rest) → (length rest < length s)%nat.
Proof.
  remember (length s) as n eqn:Hn.
  assert (Hle : (length s ≤ n)%nat) by lia. clear Hn.
  revert s cs rest Hle. induction n as [|n IH]; intros s cs rest Hle.
  - destruct s; [done|simpl in Hle; lia].
  - destruct s as [|c r]; [done|]. simpl in Hle. simpl. intros H.
    repeat (split_match; simplify_eq).
    all: simplify_eq.
    all: repeat match goal with
           | E : parse_string_chars _ = Some _ |- _ =>
               apply IH in E; [|simpl in *; lia]
           end.
    all: simpl in *; lia.
Qed.


(** A parse that succeeds with some fuel consumes input, and succeeds
    with the same result on any fuel that covers what it consumed. *)
Lemma parse_fuel fuel :
  (∀ s v rest, parse_value fuel s = Some (v, rest) →
     (length rest < length s)%nat
     ∧ ∀ f', (length s - length rest ≤ f')%nat →
             parse_value f' s = Some (v, rest))
  ∧ (∀ s vs rest, parse_elems fuel s = Some (vs, rest) →
       (length rest < length s)%nat
       ∧ ∀ f', (length s - length rest ≤ f')%nat →
               parse_elems f' s = Some (vs, rest))
  ∧ (∀ s acc kvs rest, parse_members fuel s acc = Some (kvs, rest) →
       (length rest < length s)%nat
       ∧ ∀ f', (length s - length rest ≤ f')%nat →
               parse_members f' s acc = Some (kvs, rest)).
Proof.
  induction fuel as [|f (IHv & IHe & IHm)]; [by split_and!|].
  split_and!.
  - intros s v rest. simpl.
    destruct (skip_ws s) as [|c r] eqn:Es; [done|].
    pose proof (skip_ws_cons _ _ _ Es) as Hs.
    destruct (N.eqb c LBRACKET) eqn:E1.
    { destruct (skip_ws r) as [|c2 r2] eqn:Er; [done|].
      pose proof (skip_ws_cons _ _ _ Er) as Hr.
      destruct (N.eqb c2 RBRACKET) eqn:E2.
      - intros [= <- <-]. split; [lia|]. intros [|k] Hk; [lia|].
        simpl. by rewrite Es, E1, Er, E2.
      - destruct (parse_elems f r) as [[xs rest']|] eqn:E; [|done].
        intros [= <- <-]. destruct (IHe _ _ _ E) as [Hl Hf].
        split; [lia|]. intros [|k] Hk; [lia|].
        simpl. rewrite Es, E1, Er, E2, Hf by lia. done. }
    destruct (N.eqb c 123) eqn:E3.
    { destruct (skip_ws r) as [|c2 r2] eqn:Er; [done|].
      pose proof (skip_ws_cons _ _ _ Er) as Hr.
      destruct (N.eqb c2 125) eqn:E2.
      - intros [= <- <-]. split; [lia|]. intros [|k] Hk; [lia|].
        simpl. by rewrite Es, E1, E3, Er, E2.
      - destruct (parse_members f r []) as [[kvs rest']|] eqn:E; [|done].
        intros [= <- <-]. destruct (IHm _ _ _ _ E) as [Hl Hf].
        split; [lia|]. intros [|k] Hk; [lia|].
        simpl. rewrite Es, E1, E3, Er, E2, Hf by lia. done. }
    intros H.
    assert (Hlen : (length rest < length s)%nat).
    { repeat (split_match; simplify_eq).
      all: repeat match goal with
             | E : parse_string_chars _ = Some _ |- _ =>
                 apply parse_string_chars_length in E
             | E : strip_prefix _ _ = Some _ |- _ =>
                 apply strip_prefix_length in E
             | E : parse_number _ = Some _ |- _ =>
                 apply parse_number_length in E
             end.
      all: simpl in *; lia. }
    split; [exact Hlen|]. intros [|k] Hk; [lia|].
    simpl. by rewrite Es, E1, E3.
  - intros s vs rest. simpl.
    destruct (parse_value f s) as [[v r]|] eqn:Ev; [|done].
    destruct (IHv _ _ _ Ev) as [Hl Hf].
    destruct (skip_ws r) as [|c r'] eqn:Er; [done|].
    pose proof (skip_ws_cons _ _ _ Er) as Hr.
    destruct (N.eqb c 44) eqn:E1.
    { destruct (parse_elems f r') as [[xs rest']|] eqn:E; [|done].
      intros [= <- <-]. destruct (IHe _ _ _ E) as [Hl' Hf'].
      split; [lia|]. intros [|k] Hk; [lia|].
      simpl. rewrite Hf by lia. rewrite Er, E1, Hf' by lia. done. }
    destruct (N.eqb c RBRACKET) eqn:E2; [|done].
    intros [= <- <-]. split; [lia|]. intros [|k] Hk; [lia|].
    simpl. rewrite Hf by lia. by rewrite Er, E1, E2.
  - intros s acc kvs rest. simpl.
    destruct (skip_ws s) as [|c r] eqn:Es; [done|].
    pose proof (skip_ws_cons _ _ _ Es) as Hs.
    destruct (N.eqb c 34) eqn:E1; [|done].
    destruct (parse_string_chars r) as [[key r1]|] eqn:Ek; [|done].
    pose proof (parse_string_chars_length _ _ _ Ek) as Hk1.
    destruct (skip_ws r1) as [|c1 r2] eqn:Er1; [done|].
    pose proof (skip_ws_cons _ _ _ Er1) as Hr1.
    destruct (N.eqb c1 COLON) eqn:E2; [|done].
    destruct (parse_value f r2) as [[v r3]|] eqn:Ev; [|done].
    destruct (IHv _ _ _ Ev) as [Hl Hf].
    destruct (skip_ws r3) as [|c3 r4] eqn:Er3; [done|].
    pose proof (skip_ws_cons _ _ _ Er3) as Hr3.
    destruct (N.eqb c3 44) eqn:E3.
    { intros E. destruct (IHm _ _ _ _ E) as [Hl' Hf'].
      split; [lia|]. intros [|k] Hk; [lia|].
      simpl. rewrite Es, E1, Ek, Er1, E2, Hf by lia.
      rewrite Er3, E3, Hf' by lia. done. }
    destruct (N.eqb c3 125) eqn:E4; [|done].
    intros [= <- <-]. split; [lia|]. intros [|k] Hk; [lia|].
    simpl. rewrite Es, E1, Ek, Er1, E2, Hf by lia.
    by rewrite Er3, E3, E4.
Qed.

(** The fuel [JSON_parse] gives itself is enough: whatever parses
    with some fuel parses under [JSON_parse]. *)
Lemma JSON_parse_fuel fuel s v rest :
  parse_value fuel s = Some (v, rest) → skip_ws rest = [] →
  JSON_parse s = Some v.
Proof.
  intros H Hrest. destruct (proj1 (parse_fuel fuel) _ _ _ H) as [_ Hf].
  unfold JSON_parse. rewrite Hf by lia. by rewrite Hrest.
Qed.

End ParserFuel.


Example JSON_parse_sample :
  JSON_parse (q "[{'a': [1, 2.50e1, -0], 'b': null, 'a': 'xA'}, true , []] ")
  = Some (JArr [JObj [(u "a", JStr (u "xA")); (u "b", JNull)]; JBool true; JArr []]).
Proof. vm_compute. reflexivity. Qed.

Example JSON_parse_number :
  JSON_parse (q "-12.50e3")
  = Some (JNum {| num_neg := true; num_mant := 1250; num_exp10 := 1 |}).
Proof. vm_compute. reflexivity. Qed.

Example JSON_parse_escapes :
  JSON_parse (q "'a\u0041\n'") = Some (JStr [97; 65; 10]).
Proof. vm_compute. reflexivity. Qed.

Example JSON_parse_rejects :
  JSON_parse (q "[1,]") = None
  ∧ JSON_parse (q "[1] [2]") = None
  ∧ JSON_parse (q "[01]") = None
  ∧ JSON_parse (q "{'a' 1}") = None
  ∧ JSON_parse (u "['a']") = None
  ∧ JSON_parse [] = None.
Proof. split_and!; vm_compute; reflexivity. Qed.

(** ** Response extractor *)

Section ExtractorFacts.

Implicit Types (pre mid post t : jsstr) (v : jsval).

Lemma not_space_LBRACKET : is_space LBRACKET = false.
Proof. reflexivity. Qed.

Lemma not_space_RBRACKET : is_space RBRACKET = false.
Proof. reflexivity. Qed.

Lemma trim_embedded pre mid post :
  trim (pre ++ array_text mid ++ post)
  = trimStart pre ++ array_text mid ++ trimEnd post.
Proof.
  unfold trim, array_text. simpl.
  rewrite trimStart_app by apply not_space_LBRACKET.
  replace (trimStart pre ++ LBRACKET :: (mid ++ [RBRACKET]) ++ post)
    with ((trimStart pre ++ LBRACKET :: mid) ++ RBRACKET :: post)
    by (by rewrite <- !app_assoc).
  rewrite trimEnd_app by apply not_space_RBRACKET.
  by rewrite <- !app_assoc.
Qed.

Lemma sliceArray_embedded pre mid post :
  LBRACKET ∉ pre → RBRACKET ∉ post →
  sliceArray (pre ++ array_text mid ++ post) = Ok (array_text mid).
Proof.
  intros Hpre Hpost. unfold sliceArray.
  assert (Hf : indexOf LBRACKET (pre ++ array_text mid ++ post)
               = Z.of_nat (length pre)).
  { unfold array_text. simpl. by apply indexOf_first. }
  assert (Hl : lastIndexOf RBRACKET (pre ++ array_text mid ++ post)
               = Z.of_nat (length pre + S (length mid))).
  { unfold array_text.
    replace (pre ++ (LBRACKET :: mid ++ [RBRACKET]) ++ post)
      with ((pre ++ LBRACKET :: mid) ++ RBRACKET :: post)
      by (simpl; by rewrite <- !app_assoc).
    rewrite lastIndexOf_last by done. rewrite length_app. simpl. done. }
  rewrite Hf, Hl.
  destruct (Z.eqb_spec (Z.of_nat (length pre)) (-1)); [lia|].
  destruct (Z.eqb_spec (Z.of_nat (length pre + S (length mid))) (-1)); [lia|].
  destruct (Z.ltb_spec (Z.of_nat (length pre))
              (Z.of_nat (length pre + S (length mid)))); [|lia].
  simpl. f_equal.
  replace (Z.of_nat (length pre + S (length mid)) + 1)%Z
    with (Z.of_nat (length pre) + Z.of_nat (length (array_text mid)))%Z.
  - apply (substring_middle pre (array_text mid) post).
  - unfold array_text. simpl. rewrite length_app. simpl. lia.
Qed.

Lemma parseReplyWith_trimmed parse s c r :
  trim s = c :: r → parseReplyWith parse (JStr s) = extractWith parse (c :: r).
Proof. intros E. unfold parseReplyWith. by rewrite E. Qed.

(** C1 (as amended).  When the prose before the array holds no [[] and
    the prose after it holds no []], the stage that trims the reply,
    slices from the first [[] to the last []] and parses the slice
    returns exactly the value the array's text parses to. *)
Theorem extract_embedded_array pre mid post v :
  LBRACKET ∉ pre → RBRACKET ∉ post →
  JSON_parse (array_text mid) = Some v →
  parseReply (JStr (pre ++ array_text mid ++ post)) = Ok v.
Proof.
  intros Hpre Hpost Hparse. unfold parseReply.
  destruct (trim (pre ++ array_text mid ++ post)) as [|c r] eqn:E.
  - rewrite trim_embedded in E.
    apply app_eq_nil in E as [_ E]. apply app_eq_nil in E as [E _]. done.
  - rewrite (parseReplyWith_trimmed _ _ _ _ E), <- E, trim_embedded.
    unfold extractWith.
    rewrite sliceArray_embedded.
    + simpl. unfold parseSlice. by rewrite Hparse.
    + intros H. by apply Hpre, elem_of_trimStart.
    + intros H. by apply Hpost, elem_of_trimEnd.
Qed.

Lemma extract_embedded_array_witness :
  (LBRACKET ∉ Sample.reply_pre) ∧ (RBRACKET ∉ Sample.reply_post)
  ∧ JSON_parse (array_text Sample.reply_mid) = Some (JArr [Sample.reply_record])
  ∧ parseReply (JStr Sample.reply) = Ok (JArr [Sample.reply_record]).
Proof.
  assert (H1 : LBRACKET ∉ Sample.reply_pre) by (apply lacks_spec; reflexivity).
  assert (H2 : RBRACKET ∉ Sample.reply_post) by (apply lacks_spec; reflexivity).
  assert (H3 : JSON_parse (array_text Sample.reply_mid)
               = Some (JArr [Sample.reply_record])) by (vm_compute; reflexivity).
  split_and!; [done..|].
  exact (extract_embedded_array _ _ _ _ H1 H2 H3).
Defined.

(** C1, counterexample.  The reply holds the well-formed array
    [["a", "b"]] between prose, and the prose after it holds a
    bracket: the slice runs on to that bracket and does not parse. *)
Lemma extract_bracket_prose_counterexample :
  Sample.bracket_prose_reply = u "Rows: " ++ q "['a', 'b']" ++ u " (see [notes])"
  ∧ JSON_parse (q "['a', 'b']") = Some (JArr [JStr (u "a"); JStr (u "b")])
  ∧ parseReply (JStr Sample.bracket_prose_reply)
    = Throw (InvalidJson (q "['a', 'b']" ++ u " (see [notes]")).
Proof. split_and!; vm_compute; reflexivity. Qed.

(** The end-to-end reply of the specification, evaluated. *)
Example extract_sample_reply :
  parseReply (JStr Sample.reply) = Ok (JArr [Sample.reply_record]).
Proof. vm_compute. reflexivity. Qed.

Lemma substring_head c pre rest (b : Z) :
  (Z.of_nat (length pre) < b)%Z →
  ∃ r, substring (pre ++ c :: rest) (Z.of_nat (length pre)) b = c :: r.
Proof.
  intros Hb. unfold substring, clamp. rewrite length_app. simpl.
  replace (Z.to_nat (Z.min (Z.max (Z.of_nat (length pre)) 0)
             (Z.of_nat (length pre + S (length rest))))) with (length pre) by lia.
  set (hi := Z.to_nat _).
  assert (length pre < hi)%nat by (subst hi; lia).
  rewrite Nat.min_l, Nat.max_r by lia.
  rewrite drop_app_length.
  destruct (hi - length pre)%nat as [|k] eqn:E; [lia|].
  simpl. eauto.
Qed.

Lemma sliceArray_starts t s :
  sliceArray t = Ok s → ∃ r, s = LBRACKET :: r.
Proof.
  unfold sliceArray.
  destruct (Z.eqb_spec (indexOf LBRACKET t) (-1)) as [|Hf]; [done|].
  destruct (Z.eqb_spec (lastIndexOf RBRACKET t) (-1)) as [|Hl]; [done|].
  destruct (Z.ltb_spec (indexOf LBRACKET t) (lastIndexOf RBRACKET t)) as [Hlt|];
    [|done].
  simpl. intros [= <-].
  destruct (indexOf_split _ _ Hf) as (pre & rest & -> & _ & Hi).
  rewrite Hi in *. apply substring_head. lia.
Qed.

Lemma parse_value_bracket fuel r v rest :
  parse_value fuel (LBRACKET :: r) = Some (v, rest) → ∃ xs, v = JArr xs.
Proof.
  destruct fuel as [|f]; simpl; [done|].
  destruct (skip_ws r) as [|c2 r2]; [done|].
  destruct (N.eqb c2 RBRACKET).
  - intros [= <- _]. eauto.
  - destruct (parse_elems f r) as [[xs rest']|]; [|done].
    intros [= <- _]. eauto.
Qed.

Lemma JSON_parse_bracket r v :
  JSON_parse (LBRACKET :: r) = Some v → ∃ xs, v = JArr xs.
Proof.
  unfold JSON_parse.
  destruct (parse_value _ _) as [[w rest]|] eqn:E; [|done].
  destruct (skip_ws rest); [|done]. intros [= <-].
  by eapply parse_value_bracket.
Qed.

(** What the extraction returns is always an array. *)
Lemma extract_is_array t v : extract t = Ok v → ∃ xs, v = JArr xs.
Proof.
  unfold extract, extractWith.
  destruct (sliceArray t) as [s|e] eqn:E; [|done].
  destruct (sliceArray_starts _ _ E) as [r ->].
  simpl. unfold parseSlice.
  destruct (JSON_parse (LBRACKET :: r)) as [w|] eqn:P; [|done].
  intros [= <-]. by eapply JSON_parse_bracket.
Qed.

Lemma parseReply_is_array modelResult v :
  parseReply modelResult = Ok v → ∃ xs, v = JArr xs.
Proof.
  unfold parseReply, parseReplyWith.
  destruct modelResult as [| | | |s| |]; try done.
  destruct (trim s) as [|c r]; [done|]. apply extract_is_array.
Qed.

Lemma no_bracket_pair_slice t : no_bracket_pair t → sliceArray t = Throw NoJsonArray.
Proof.
  unfold sliceArray. intros [H|[H|(pre & rest & -> & Hpre & Hrest)]].
  - by rewrite (indexOf_absent _ _ H).
  - rewrite (lastIndexOf_absent _ _ H). simpl. by rewrite andb_false_r.
  - rewrite (indexOf_first _ _ _ Hpre).
    change (pre ++ LBRACKET :: rest) with (pre ++ [LBRACKET] ++ rest).
    rewrite app_assoc, lastIndexOf_app_absent by done.
    assert (RBRACKET ∉ [LBRACKET]) as Hb by (apply lacks_spec; reflexivity).
    rewrite lastIndexOf_app_absent by done.
    pose proof (lastIndexOf_range RBRACKET pre).
    destruct (Z.ltb_spec (Z.of_nat (length pre)) (lastIndexOf RBRACKET pre));
      [lia|]. by rewrite andb_false_r.
Qed.

(** The condition is exact: the slice is refused on these texts and
    on no others. *)
Lemma sliceArray_refused t :
  sliceArray t = Throw NoJsonArray ↔ no_bracket_pair t.
Proof.
  split; [|apply no_bracket_pair_slice].
  unfold sliceArray, no_bracket_pair.
  destruct (Z.eqb_spec (indexOf LBRACKET t) (-1)) as [Hf|Hf].
  { intros _. left. intros Hin. by apply indexOf_present in Hin. }
  destruct (Z.eqb_spec (lastIndexOf RBRACKET t) (-1)) as [Hl|Hl].
  { intros _. right; left. intros Hin. by apply lastIndexOf_present in Hin. }
  destruct (Z.ltb_spec (indexOf LBRACKET t) (lastIndexOf RBRACKET t))
    as [Hlt|Hge]; [done|].
  intros _. right; right.
  destruct (indexOf_split _ _ Hf) as (pre & rest & -> & Hpre & Hi).
  exists pre, rest. split_and!; [done..|].
  intros Hin. rewrite Hi in Hge.
  change (pre ++ LBRACKET :: rest) with (pre ++ [LBRACKET] ++ rest) in Hge.
  rewrite app_assoc, (lastIndexOf_app_present _ _ _ Hin), length_app in Hge.
  pose proof (lastIndexOf_range RBRACKET rest).
  pose proof (lastIndexOf_present _ _ Hin). simpl in Hge. lia.
Qed.

(** C2.  On a text with no [[], or no []], or whose last []] does not
    follow its first [[], the extraction fails with 'AI response does
    not contain a valid JSON array', whatever the parser would do:
    the parser is not consulted. *)
Theorem extract_no_bracket_pair (parse : jsstr → option jsval) t :
  no_bracket_pair t → extractWith parse t = Throw NoJsonArray.
Proof.
  intros H. unfold extractWith. by rewrite (no_bracket_pair_slice _ H).
Qed.

Lemma extract_no_bracket_pair_witness :
  no_bracket_pair (u "done ] see [")
  ∧ extractWith (fun _ => None) (u "done ] see [") = Throw NoJsonArray
  ∧ extractWith JSON_parse (u "done ] see [") = Throw NoJsonArray.
Proof.
  assert (H : no_bracket_pair (u "done ] see [")).
  { right. right. exists (u "done ] see "), [].
    split_and!; [reflexivity|apply lacks_spec; reflexivity|apply not_elem_of_nil]. }
  split_and!; [exact H|exact (extract_no_bracket_pair _ _ H)..].
Defined.

Lemma no_bracket_pair_trim t : no_bracket_pair t → no_bracket_pair (trim t).
Proof.
  unfold trim.
  intros [H|[H|(pre & rest & -> & Hpre & Hrest)]].
  - left. intros ?%elem_of_trimEnd%elem_of_trimStart. done.
  - right; left. intros ?%elem_of_trimEnd%elem_of_trimStart. done.
  - right; right. exists (trimStart pre), (trimEnd rest).
    rewrite trimStart_app, trimEnd_app by reflexivity.
    split_and!; [done| |].
    + intros ?%elem_of_trimStart. done.
    + intros ?%elem_of_trimEnd. done.
Qed.

(** On the handler's path the reply is trimmed first: a reply without
    a bracket pair is rejected before any parsing, as an empty reply
    when nothing but white space is left and as a missing array
    otherwise. *)
Lemma parseReply_no_bracket_pair (parse : jsstr → option jsval) s :
  no_bracket_pair s →
  parseReplyWith parse (JStr s)
  = Throw (match trim s with [] => EmptyResponse | _ :: _ => NoJsonArray end).
Proof.
  intros H%no_bracket_pair_trim. unfold parseReplyWith.
  destruct (trim s) as [|c r]; [done|].
  unfold extractWith. by rewrite (no_bracket_pair_slice _ H).
Qed.

End ExtractorFacts.

(** ** Objects *)

Section ObjectFacts.

Implicit Types (kvs : list (jsstr * jsval)) (k : jsstr) (v : jsval).

Lemma str_eqb_eq k k' : str_eqb k k' = true ↔ k = k'.
Proof. unfold str_eqb. by rewrite bool_decide_eq_true. Qed.

Lemma str_eqb_refl k : str_eqb k k = true.
Proof. by apply str_eqb_eq. Qed.

Lemma str_eqb_ne k k' : k ≠ k' → str_eqb k k' = false.
Proof. unfold str_eqb. by rewrite bool_decide_eq_false. Qed.

Lemma obj_get_set_eq kvs k v : obj_get (obj_set kvs k v) k = Some v.
Proof.
  induction kvs as [|[k' v'] r IH]; simpl.
  - by rewrite str_eqb_refl.
  - destruct (str_eqb k' k) eqn:E; simpl; rewrite E; [done|apply IH].
Qed.

Lemma obj_get_set_ne kvs k k' v :
  k ≠ k' → obj_get (obj_set kvs k v) k' = obj_get kvs k'.
Proof.
  intros Hne. induction kvs as [|[k0 v0] r IH]; simpl.
  - by rewrite str_eqb_ne.
  - destruct (str_eqb k0 k) eqn:E; simpl.
    + apply str_eqb_eq in E as ->. by rewrite str_eqb_ne.
    + by rewrite IH.
Qed.

Lemma obj_keys_set kvs k k' v :
  k' ∈ obj_keys (obj_set kvs k v) ↔ k' ∈ obj_keys kvs ∨ k' = k.
Proof.
  unfold obj_keys. induction kvs as [|[k0 v0] r IH]; simpl.
  - rewrite list_elem_of_singleton, elem_of_nil. tauto.
  - destruct (str_eqb k0 k) eqn:E; simpl.
    + apply str_eqb_eq in E as ->. rewrite !elem_of_cons. tauto.
    + rewrite !elem_of_cons, IH. tauto.
Qed.

End ObjectFacts.

(** ** Row reconciler *)

Section ReconcilerFacts.

Implicit Types (rows : list row) (parsed : list jsval) (r : row).

Lemma getProp_js_or x k :
  getProp (js_or x (JObj [])) k = Ok (get (js_or x (JObj [])) k).
Proof.
  unfold js_or. destruct (truthy x) eqn:T; [|done].
  by destruct x.
Qed.

Lemma get_ai_field parsed i k :
  get (js_or (index parsed i) (JObj [])) k
  = default JUndefined (ai_field parsed i k).
Proof.
  unfold index, ai_field, js_or.
  destruct (parsed !! i) as [v|]; simpl; [|done].
  destruct v as [| |b|n|s|xs|kvs]; simpl; try done.
  - by destruct b.
  - by destruct (negb _).
  - by destruct (negb _).
Qed.

Lemma js_or_default o : js_or (default JUndefined o) (JStr []) = or_empty o.
Proof. by destruct o. Qed.

Lemma js_or_first_truthy a b :
  js_or (if truthy (default JUndefined a) then default JUndefined a
         else default JUndefined b) (JStr [])
  = or_empty (first_truthy a b).
Proof.
  destruct a as [v|]; simpl; [|apply js_or_default].
  destruct (truthy v) eqn:T; simpl.
  - unfold js_or. by rewrite T.
  - apply js_or_default.
Qed.

(** The callback never throws, and writes the three keys from the AI
    record's fields. *)
Lemma overlayRow_ok parsed i r :
  overlayRow parsed i r
  = Ok (obj_set
          (obj_set
             (obj_set r Module_ (or_empty (ai_field parsed i Module_)))
             Summarized_Problem
             (or_empty (first_truthy (ai_field parsed i Summarized_Problem)
                                     (ai_field parsed i SummarizedProblem))))
          Severity (or_empty (ai_field parsed i Severity))).
Proof.
  unfold overlayRow. rewrite !getProp_js_or. simpl.
  rewrite !get_ai_field.
  destruct (truthy (default JUndefined (ai_field parsed i Summarized_Problem)))
    eqn:T; simpl.
  - rewrite <- js_or_first_truthy, T, !js_or_default. done.
  - rewrite <- js_or_first_truthy, T, !js_or_default. done.
Qed.

Lemma mapWithIndex_total {A B} (f : nat → A → result B) (g : nat → A → B) :
  (∀ i x, f i x = Ok (g i x)) →
  ∀ l n, mapWithIndex f n l = Ok (imap (fun i => g (n + i)%nat) l).
Proof.
  intros Hf l. induction l as [|x r IH]; intros n; simpl; [done|].
  rewrite Hf. simpl. rewrite IH. simpl.
  rewrite Nat.add_0_r. do 2 f_equal. apply imap_ext. intros i y _. simpl.
  f_equal. lia.
Qed.

Lemma mergeOverlay_ok rows parsed :
  mergeOverlay rows parsed
  = Ok (imap (fun i r =>
          obj_set
            (obj_set
               (obj_set r Module_ (or_empty (ai_field parsed i Module_)))
               Summarized_Problem
               (or_empty (first_truthy (ai_field parsed i Summarized_Problem)
                                       (ai_field parsed i SummarizedProblem))))
            Severity (or_empty (ai_field parsed i Severity))) rows).
Proof.
  unfold mergeOverlay.
  rewrite (mapWithIndex_total _ _ (overlayRow_ok parsed)). simpl. done.
Qed.

Lemma overlay_keys_distinct :
  Module_ ≠ Summarized_Problem ∧ Module_ ≠ Severity
  ∧ Summarized_Problem ≠ Severity.
Proof. split_and!; discriminate. Qed.

Lemma not_overlay_key k :
  k ∉ overlay_keys ↔ k ≠ Module_ ∧ k ≠ Summarized_Problem ∧ k ≠ Severity.
Proof.
  unfold overlay_keys.
  rewrite !not_elem_of_cons, elem_of_nil. tauto.
Qed.

(** What the three writes leave in a row. *)
Lemma overlay_writes r m s v :
  let r' := obj_set (obj_set (obj_set r Module_ m) Summarized_Problem s)
              Severity v in
  (∀ k, k ∈ obj_keys r → k ∈ obj_keys r')
  ∧ (∀ k, k ∉ overlay_keys → obj_get r' k = obj_get r k)
  ∧ obj_get r' Module_ = Some m
  ∧ obj_get r' Summarized_Problem = Some s
  ∧ obj_get r' Severity = Some v.
Proof.
  destruct overlay_keys_distinct as (Hms & Hmv & Hsv).
  intros r'. subst r'. split_and!.
  - intros k Hk. rewrite !obj_keys_set. tauto.
  - intros k (Hm & Hs & Hv)%not_overlay_key.
    rewrite !obj_get_set_ne by done. done.
  - rewrite !obj_get_set_ne by done. apply obj_get_set_eq.
  - rewrite obj_get_set_ne by done. apply obj_get_set_eq.
  - apply obj_get_set_eq.
Qed.

(** C3 (as amended).  Row [i] of the overlay keeps every key of the
    original row, and the original value of every key other than
    Module, Summarized Problem and Severity.  Each of these three is
    the field of AI record [i] when that field holds a truthy value
    (Summarized Problem read from SummarizedProblem as a second
    choice), and the empty string otherwise; all three are the empty
    string when the record is absent.  No other key is written:
    Severity Reason is left as the original row has it. *)
Theorem overlay_row rows parsed i r :
  rows !! i = Some r →
  ∃ merged r',
    mergeOverlay rows parsed = Ok merged
    ∧ merged !! i = Some r'
    ∧ (∀ k, k ∈ obj_keys r → k ∈ obj_keys r')
    ∧ (∀ k, k ∉ overlay_keys → obj_get r' k = obj_get r k)
    ∧ obj_get r' Module_ = Some (or_empty (ai_field parsed i Module_))
    ∧ obj_get r' Summarized_Problem
      = Some (or_empty (first_truthy (ai_field parsed i Summarized_Problem)
                                     (ai_field parsed i SummarizedProblem)))
    ∧ obj_get r' Severity = Some (or_empty (ai_field parsed i Severity))
    ∧ (parsed !! i = None →
       obj_get r' Module_ = Some (JStr [])
       ∧ obj_get r' Summarized_Problem = Some (JStr [])
       ∧ obj_get r' Severity = Some (JStr [])).
Proof.
  intros Hr. eexists _, _. split; [apply mergeOverlay_ok|].
  split; [by rewrite list_lookup_imap, Hr|].
  match goal with
  | |- context [obj_set (obj_set (obj_set r _ ?m) _ ?s) _ ?v] =>
      destruct (overlay_writes r m s v) as (H1 & H2 & H3 & H4 & H5)
  end.
  split_and!; [exact H1|exact H2|exact H3|exact H4|exact H5|].
  intros Hnone. rewrite H3, H4, H5. unfold ai_field. rewrite Hnone. done.
Qed.

Lemma overlay_row_witness :
  [Sample.input_row] !! 0%nat = Some Sample.input_row
  ∧ ∃ merged r',
      mergeOverlay [Sample.input_row] [Sample.reply_record] = Ok merged
      ∧ merged !! 0%nat = Some r'
      ∧ obj_get r' (u "Title") = Some (JStr (u "[X][Y] battery drains fast"))
      ∧ obj_get r' Module_ = Some (JStr (u "Battery"))
      ∧ obj_get r' Severity = Some (JStr (u "High")).
Proof.
  assert (H : [Sample.input_row] !! 0%nat = Some Sample.input_row) by reflexivity.
  split; [exact H|].
  destruct (overlay_row [Sample.input_row] [Sample.reply_record] 0
              Sample.input_row H)
    as (merged & r' & Hm & Hl & _ & Hother & HM & _ & HS & _).
  exists merged, r'. split_and!; [exact Hm|exact Hl| |exact HM|exact HS].
  rewrite Hother; [reflexivity|].
  apply not_overlay_key. split_and!; discriminate.
Defined.

(** C3, counterexample.  With no AI record for the row, the merged
    row has no Severity Reason at all (it is not the empty string);
    and an original Severity is not retained but blanked. *)
Lemma overlay_row_counterexample :
  mergeOverlay [Sample.input_row] []
  = Ok [ Sample.input_row
           ++ [ (Module_, JStr []); (Summarized_Problem, JStr []);
                (Severity, JStr []) ] ]
  ∧ obj_get (Sample.input_row
               ++ [ (Module_, JStr []); (Summarized_Problem, JStr []);
                    (Severity, JStr []) ]) Severity_Reason = None
  ∧ mergeOverlay [ [ (Severity, JStr (u "High")) ] ] []
    = Ok [ [ (Severity, JStr []); (Module_, JStr []);
             (Summarized_Problem, JStr []) ] ].
Proof. split_and!; vm_compute; reflexivity. Qed.

(** The end-to-end example of the specification: the overlay of its
    one row with its one record. *)
Example overlay_sample :
  mergeOverlay [Sample.input_row] [Sample.reply_record]
  = Ok [ [ (u "Title", JStr (u "[X][Y] battery drains fast"));
           (u "Problem", JStr (u "loses 20% per hour"));
           (u "Module", JStr (u "Battery"));
           (u "Summarized Problem",
            JStr (u "Battery drains rapidly, losing about 20% per hour."));
           (u "Severity", JStr (u "High")) ] ].
Proof. vm_compute. reflexivity. Qed.

Lemma ai_field_take parsed n i k :
  (i < n)%nat → ai_field (take n parsed) i k = ai_field parsed i k.
Proof. intros Hi. unfold ai_field. by rewrite lookup_take_lt. Qed.

Lemma ai_field_not_object parsed i v k :
  parsed !! i = Some v → is_object v = false → ai_field parsed i k = None.
Proof. intros Hv Hobj. unfold ai_field. rewrite Hv. by destruct v. Qed.

(** C10.  The overlay never throws and returns exactly one row per
    original row; what the AI array holds at or beyond the original
    row count has no effect; and an AI element that is no object
    ([null], a number, a string, a boolean, an array) leaves the three
    AI fields of its row as the empty string. *)
Theorem overlay_length rows parsed :
  ∃ merged,
    mergeOverlay rows parsed = Ok merged
    ∧ length merged = length rows
    ∧ mergeOverlay rows (take (length rows) parsed) = Ok merged
    ∧ ∀ i r v, rows !! i = Some r → parsed !! i = Some v →
               is_object v = false →
               ∃ r', merged !! i = Some r'
                     ∧ obj_get r' Module_ = Some (JStr [])
                     ∧ obj_get r' Summarized_Problem = Some (JStr [])
                     ∧ obj_get r' Severity = Some (JStr []).
Proof.
  eexists. split; [apply mergeOverlay_ok|].
  split; [apply length_imap|].
  split.
  - rewrite mergeOverlay_ok. f_equal. apply imap_ext. intros i r Hr.
    apply lookup_lt_Some in Hr. simpl. by rewrite !ai_field_take.
  - intros i r v Hr Hv Hobj.
    eexists. split; [by rewrite list_lookup_imap, Hr|]. simpl.
    match goal with
    | |- context [obj_set (obj_set (obj_set r _ ?m) _ ?s) _ ?w] =>
        destruct (overlay_writes r m s w) as (_ & _ & HM & HS & HV)
    end.
    rewrite HM, HS, HV, !(ai_field_not_object _ _ _ _ Hv Hobj). done.
Qed.

Lemma overlay_length_witness :
  ∃ merged r',
    mergeOverlay [Sample.input_row] [JNull; Sample.reply_record] = Ok merged
    ∧ length merged = 1%nat
    ∧ merged !! 0%nat = Some r'
    ∧ obj_get r' Module_ = Some (JStr [])
    ∧ obj_get r' Severity = Some (JStr []).
Proof.
  destruct (overlay_length [Sample.input_row] [JNull; Sample.reply_record])
    as (merged & Hm & Hlen & _ & Hnull).
  destruct (Hnull 0%nat Sample.input_row JNull eq_refl eq_refl eq_refl)
    as (r' & Hl & HM & _ & HV).
  exists merged, r'. split_and!; [exact Hm|exact Hlen|exact Hl|exact HM|exact HV].
Defined.

(** C4.  The replace policy hands the parsed reply on as it is,
    whatever the original rows are: nothing compares their number
    with the number of records. *)
Theorem replace_verbatim rows (reply : jsval) : mergeReplace rows reply = reply.
Proof. reflexivity. Qed.

Example replace_length_mismatch :
  mergeReplace [Sample.input_row]
    (JArr [Sample.reply_record; Sample.reply_record; JNull])
  = JArr [Sample.reply_record; Sample.reply_record; JNull].
Proof. reflexivity. Qed.

End ReconcilerFacts.

(** ** Inference client *)

Section ClientFacts.

Implicit Types (body s : jsstr) (j v : jsval).

(** The client of [part_000] never resolves with a blank reply. *)
Lemma callOllama_end_not_blank body v :
  Client.callOllama_end body = Ok v → Client.blank_reply v = false.
Proof.
  unfold Client.callOllama_end.
  destruct (JSON_parse body) as [j|]; [|done].
  destruct (Client.backend_error j); [done|].
  destruct (Client.extractReply j body) as [reply|]; [|done].
  destruct (Client.blank_reply reply) eqn:B; [done|].
  by intros [= <-].
Qed.

Lemma getProp_of_get j k w :
  get j k = JStr w → getProp j k = Ok (JStr w).
Proof. destruct j; simpl; try done. by intros ->. Qed.

(** C6 (as amended).  For a text [s] that is empty or all white
    space: the client of [part_000] rejects with 'AI model returned
    empty response' whenever [s] is the text it extracts from the
    body; the two clients of [server.js] make no such check and
    resolve with [s] when it is the body's [response]; and the
    spreadsheet handlers of both files reject a reply [s] with that
    same message before any extraction. *)
Theorem empty_reply s :
  blank s →
  (∀ body j, JSON_parse body = Some j → Client.backend_error j = false →
             Client.extractReply j body = Ok (JStr s) →
             Client.callOllama_end body = Throw EmptyResponse)
  ∧ (∀ body j, JSON_parse body = Some j → get j (u "response") = JStr s →
               Client.callOllama_end_server body = Ok (JStr s)
               ∧ Client.callOllama_end_simple body = Ok (JStr s))
  ∧ (∀ parse, parseReplyWith parse (JStr s) = Throw EmptyResponse).
Proof.
  intros Hs%trim_blank. split_and!.
  - intros body j Hj Herr Hreply. unfold Client.callOllama_end.
    rewrite Hj, Herr, Hreply. unfold Client.blank_reply.
    rewrite Hs. simpl. by rewrite orb_true_r.
  - intros body j Hj Hget.
    unfold Client.callOllama_end_server, Client.callOllama_end_simple.
    rewrite Hj, (getProp_of_get _ _ _ Hget). done.
  - intros parse. unfold parseReplyWith. by rewrite Hs.
Qed.

Lemma empty_reply_witness :
  blank (u "  ")
  ∧ Client.callOllama_end (q "{'response':'  '}") = Throw EmptyResponse
  ∧ Client.callOllama_end_server (q "{'response':'  '}") = Ok (JStr (u "  "))
  ∧ parseReply (JStr (u "  ")) = Throw EmptyResponse.
Proof.
  assert (Hs : blank (u "  ")) by (repeat constructor).
  destruct (empty_reply (u "  ") Hs) as (H1 & H2 & H3).
  split_and!.
  - exact Hs.
  - eapply H1; vm_compute; reflexivity.
  - eapply H2; vm_compute; reflexivity.
  - apply H3.
Defined.

(** C6, counterexample.  The clients of [server.js] resolve
    successfully with an empty and with an all-blank reply text. *)
Lemma empty_reply_counterexample :
  Client.callOllama_end_server (q "{'response':''}") = Ok (JStr [])
  ∧ Client.callOllama_end_simple (q "{'response':''}") = Ok (JStr [])
  ∧ Client.callOllama_end_server (q "{'response':' '}") = Ok (JStr (u " ")).
Proof. split_and!; vm_compute; reflexivity. Qed.

Example callOllama_end_blank :
  Client.callOllama_end (q "{'response':''}") = Throw EmptyResponse
  ∧ Client.callOllama_end (q "{'output':' '}") = Throw EmptyResponse
  ∧ Client.callOllama_end (q "{'error':'model not found'}")
    = Throw (OllamaError (JStr (u "model not found")))
  ∧ Client.callOllama_end (q "null") = Throw ParseFailed
  ∧ Client.callOllama_end (q "{'result':'ok'}") = Ok (JStr (u "ok"))
  ∧ Client.callOllama_end (q "{'done':true}") = Ok (JStr (q "{'done':true}")).
Proof. split_and!; vm_compute; reflexivity. Qed.

End ClientFacts.

(** ** Output naming *)

Section NamerFacts.

Implicit Types (model name : jsstr) (now : date).

Lemma below_forall (P : N → bool) (b : N) :
  forallb P (below b) = true → ∀ n, n < b → P n = true.
Proof.
  intros H n Hn. rewrite forallb_forall in H. apply H.
  unfold below. apply in_map_iff. exists (N.to_nat n).
  split; [lia|]. apply in_seq. lia.
Qed.

Lemma pad2_fixed_width n : n < 100 → pad2 n = fixed_width 2 n.
Proof.
  intros Hn.
  pose proof (below_forall
    (fun n => bool_decide (pad2 n = fixed_width 2 n)) 100) as H.
  specialize (H ltac:(vm_compute; reflexivity) n ltac:(lia)). simpl in H.
  by apply bool_decide_eq_true in H.
Qed.

Lemma decimal_fixed_width n :
  1000 ≤ n → n < 10000 → decimal n = fixed_width 4 n.
Proof.
  intros Hlo Hhi.
  pose proof (below_forall
    (fun n => N.ltb n 1000 || bool_decide (decimal n = fixed_width 4 n))
    10000) as H.
  specialize (H ltac:(vm_compute; reflexivity) n ltac:(lia)).
  apply orb_prop in H as [H|H].
  - apply N.ltb_lt in H. lia.
  - by apply bool_decide_eq_true in H.
Qed.

Lemma datetime_stamp now : valid_date now → datetime now = stamp now.
Proof.
  intros (Hy & Hmo & Hd & Hh & Hmi & Hs). unfold datetime, stamp.
  unfold numberToString.
  destruct (Z.ltb_spec (getFullYear now) 0); [lia|].
  rewrite decimal_fixed_width by lia.
  rewrite !pad2_fixed_width by lia. done.
Qed.

Lemma removeColons_filter model :
  removeColons model = filter (fun c => c ≠ COLON) model.
Proof.
  unfold jsstr, cu in *.
  induction model as [|c r IH]; [done|].
  rewrite filter_cons. cbn [removeColons]. rewrite IH.
  destruct (N.eqb_spec c COLON) as [->|Hne].
  - by rewrite decide_False by (intros H; by apply H).
  - by rewrite decide_True.
Qed.

Lemma processedFilename_differs model1 model2 name1 name2 now :
  (name1 = name2 ∧ removeColons model1 ≠ removeColons model2)
  ∨ (removeColons model1 = removeColons model2 ∧ name1 ≠ name2) →
  processedFilename model1 now name1 ≠ processedFilename model2 now name2.
Proof.
  unfold processedFilename. intros [[-> Hm]|[Hm Hn]] E.
  - by apply app_inv_tail in E.
  - rewrite Hm in E. apply app_inv_head in E.
    apply app_inv_head in E. apply app_inv_head in E.
    by apply app_inv_head in E.
Qed.

Lemma downloadUrl_inj a b : downloadUrl a = downloadUrl b → a = b.
Proof. unfold downloadUrl. apply app_inv_head. Qed.

(** C5 (as amended).  At a date with a four-digit year the output
    filename of [server.js] is the model id with every colon removed,
    a dash, the time as YYYYMMDD-HHMMSS, a dash, and the original
    filename.  Two requests of the same second get distinct filenames
    and download URLs when their original filenames are the same and
    their model ids differ after the colons are removed, or when
    their model ids are the same after the colons are removed and
    their original filenames differ. *)
Theorem processedFilename_spec model now name :
  valid_date now →
  processedFilename model now name
  = filter (fun c => c ≠ COLON) model ++ [DASH] ++ stamp now ++ [DASH] ++ name
  ∧ ∀ model2 name2,
      (name2 = name ∧ removeColons model2 ≠ removeColons model)
      ∨ (removeColons model2 = removeColons model ∧ name2 ≠ name) →
      processedFilename model2 now name2 ≠ processedFilename model now name
      ∧ downloadUrl (processedFilename model2 now name2)
        ≠ downloadUrl (processedFilename model now name).
Proof.
  intros Hnow. split.
  - unfold processedFilename.
    by rewrite removeColons_filter, (datetime_stamp _ Hnow).
  - intros model2 name2 H.
    pose proof (processedFilename_differs _ _ _ _ now H) as Hne.
    split; [exact Hne|]. by intros ?%downloadUrl_inj.
Qed.

Lemma valid_date_sample : valid_date Sample.now.
Proof. unfold valid_date. simpl. lia. Qed.

Lemma processedFilename_spec_witness :
  valid_date Sample.now
  ∧ processedFilename (u "a:1") Sample.now (u "report.xlsx")
    = u "a1-20250105-090307-report.xlsx"
  ∧ processedFilename (u "a:2") Sample.now (u "report.xlsx")
    ≠ processedFilename (u "a:1") Sample.now (u "report.xlsx").
Proof.
  destruct (processedFilename_spec (u "a:1") Sample.now (u "report.xlsx")
              valid_date_sample) as [Hname Hdiff].
  split_and!.
  - exact valid_date_sample.
  - rewrite Hname. vm_compute. reflexivity.
  - apply (Hdiff (u "a:2") (u "report.xlsx")). left.
    split; [reflexivity|discriminate].
Defined.

(** C5, counterexample.  Two model ids that differ only by a colon,
    the same second, the same original filename: one filename, hence
    one path and one URL. *)
Lemma processedFilename_counterexample :
  bool_decide (u "a:1" = u "a1") = false
  ∧ processedFilename (u "a:1") Sample.now (u "report.xlsx")
    = u "a1-20250105-090307-report.xlsx"
  ∧ processedFilename (u "a1") Sample.now (u "report.xlsx")
    = u "a1-20250105-090307-report.xlsx".
Proof. split_and!; vm_compute; reflexivity. Qed.

(** The variant in [part_000] names the file after the clock alone. *)
Example processedFilename_ms_sample :
  processedFilename_ms 1736067787123 (u "report.xlsx")
  = u "processed-1736067787123-report.xlsx".
Proof. vm_compute. reflexivity. Qed.

End NamerFacts.

(** ** Files and the spreadsheet handler *)

Section HandlerFacts.

Context {buffer : Type}.
Variable xlsx_decode : buffer → result (list row).
Variable xlsx_encode : jsval → result buffer.
Variable path_join : jsstr → jsstr → jsstr.

Implicit Types (st : fs buffer) (req : request) (buf : buffer).

Lemma writeFileSync_lookup p buf st st1 :
  writeFileSync p buf st = Ok st1 → files st1 !! p = Some buf.
Proof.
  unfold writeFileSync. destruct (decide _); [done|].
  intros [= <-]. simpl. apply lookup_insert_eq.
Qed.

Lemma unlinkSync_lookup p st st2 :
  unlinkSync p st = Ok st2 → files st2 !! p = None.
Proof.
  unfold unlinkSync. destruct (decide _); [done|].
  destruct (files st !! p); [|done].
  intros [= <-]. simpl. apply lookup_delete_eq.
Qed.

Lemma answer_storeAs name req buf st st1 :
  writeFileSync (path_join (u "downloads") name) buf st = Ok st1 →
  cleanup_outcome (answer st (Ok buf) (storeAs path_join name req)) st1 req name.
Proof.
  intros Hw. unfold cleanup_outcome, answer, storeAs. rewrite Hw.
  destruct (unlinkSync (file_path req) st1) as [st2|e] eqn:E; [|done].
  split; [done|]. by eapply unlinkSync_lookup.
Qed.

(** Under the replace policy the workbook written is the encoding of
    the parsed reply, whatever rows the upload decoded to. *)
Lemma prepare_replace req modelResult st wb rows parsed :
  readFileSync (file_path req) st = Ok wb →
  xlsx_decode wb = Ok rows →
  parseReply modelResult = Ok parsed →
  prepare xlsx_decode xlsx_encode req (Ok modelResult) st = xlsx_encode parsed.
Proof.
  intros Hr Hd Hp. unfold prepare. rewrite Hr. simpl. rewrite Hd. simpl.
  rewrite Hp. done.
Qed.

(** C8 (as amended).  Once a handler has written its output, it
    unlinks the upload.  When the unlink succeeds the upload is gone
    and the answer is the success answer; when the unlink throws, the
    error is logged and the answer is HTTP 500 with that error: the
    failure of the deletion is escalated.  This holds for the handler
    of [server.js] and for the one of [part_000]. *)
Theorem unlink_failure_escalates req reply now nowMs st :
  (∀ buf st1,
     prepare xlsx_decode xlsx_encode req reply st = Ok buf →
     writeFileSync
       (path_join (u "downloads")
          (processedFilename (modelOf (body_model req)) now
             (file_originalname req))) buf st = Ok st1 →
     cleanup_outcome
       (processExcel xlsx_decode xlsx_encode path_join req reply now st)
       st1 req
       (processedFilename (modelOf (body_model req)) now
          (file_originalname req)))
  ∧ (∀ buf st1,
       prepare_overlay xlsx_decode xlsx_encode req reply st = Ok buf →
       writeFileSync
         (path_join (u "downloads")
            (processedFilename_ms nowMs (file_originalname req))) buf st
       = Ok st1 →
       cleanup_outcome
         (processExcel_overlay xlsx_decode xlsx_encode path_join req reply
            nowMs st)
         st1 req (processedFilename_ms nowMs (file_originalname req))).
Proof.
  split; intros buf st1 Hp Hw.
  - unfold processExcel. rewrite Hp. by apply answer_storeAs.
  - unfold processExcel_overlay. rewrite Hp. by apply answer_storeAs.
Qed.

End HandlerFacts.

Example prepare_sample :
  prepare Codec.xlsx_decode Codec.xlsx_encode Sample.req
    (Ok (JStr Sample.reply)) Sample.fs_ready = Ok Sample.output.
Proof. vm_compute. reflexivity. Qed.

Lemma unlink_failure_escalates_witness :
  prepare Codec.xlsx_decode Codec.xlsx_encode Sample.req
    (Ok (JStr Sample.reply)) Sample.fs_ready = Ok Sample.output
  ∧ writeFileSync
      (join_plain (u "downloads")
         (processedFilename (modelOf (body_model Sample.req)) Sample.now
            (file_originalname Sample.req)))
      Sample.output Sample.fs_ready
    = Ok (mkFs (<[Sample.output_path := Sample.output]> (files Sample.fs_ready)) ∅)
  ∧ cleanup_outcome
      (processExcel Codec.xlsx_decode Codec.xlsx_encode join_plain Sample.req
         (Ok (JStr Sample.reply)) Sample.now Sample.fs_ready)
      (mkFs (<[Sample.output_path := Sample.output]> (files Sample.fs_ready)) ∅)
      Sample.req
      (processedFilename (modelOf (body_model Sample.req)) Sample.now
         (file_originalname Sample.req)).
Proof.
  assert (H1 : prepare Codec.xlsx_decode Codec.xlsx_encode Sample.req
                 (Ok (JStr Sample.reply)) Sample.fs_ready = Ok Sample.output)
    by (vm_compute; reflexivity).
  assert (H2 : writeFileSync
                 (join_plain (u "downloads")
                    (processedFilename (modelOf (body_model Sample.req))
                       Sample.now (file_originalname Sample.req)))
                 Sample.output Sample.fs_ready
               = Ok (mkFs (<[Sample.output_path := Sample.output]>
                             (files Sample.fs_ready)) ∅))
    by (vm_compute; reflexivity).
  split_and!; [exact H1|exact H2|].
  exact (proj1 (unlink_failure_escalates Codec.xlsx_decode Codec.xlsx_encode
                  join_plain Sample.req (Ok (JStr Sample.reply)) Sample.now 0
                  Sample.fs_ready) _ _ H1 H2).
Defined.

(** C8, counterexample.  The upload is in place and the output is
    written, but the operating system refuses to remove the upload:
    the handler of [server.js] logs the error and answers 500, the
    output file stays written and the upload stays where it was. *)
Lemma unlink_failure_counterexample :
  processExcel Codec.xlsx_decode Codec.xlsx_encode join_plain Sample.req
    (Ok (JStr Sample.reply)) Sample.now Sample.fs_locked
  = (mkFs (<[Sample.output_path := Sample.output]> (files Sample.fs_locked))
       (denied Sample.fs_locked),
     [EACCES (file_path Sample.req)],
     Failure 500 (EACCES (file_path Sample.req)))
  ∧ (<[Sample.output_path := Sample.output]> (files Sample.fs_locked))
      !! Sample.output_path = Some Sample.output
  ∧ (<[Sample.output_path := Sample.output]> (files Sample.fs_locked))
      !! file_path Sample.req = Some Sample.upload.
Proof. split_and!; vm_compute; reflexivity. Qed.

(** The same request when the upload can be removed. *)
Example processExcel_sample :
  (processExcel Codec.xlsx_decode Codec.xlsx_encode join_plain Sample.req
     (Ok (JStr Sample.reply)) Sample.now Sample.fs_ready).2
  = Success (u "/downloads/gemma34b-20250105-090307-report.xlsx")
      (u "gemma34b-20250105-090307-report.xlsx").
Proof. vm_compute. reflexivity. Qed.

(** ** Spreadsheet codec *)

Section CodecFacts.

Import Codec.

Implicit Types (hdr : list jsstr) (cells : list cell) (acc : row)
  (rows : list row) (h k : jsstr).

Lemma decode_cells_keys hdr cells acc h :
  h ∈ hdr ∨ h ∈ obj_keys acc → h ∈ obj_keys (decode_cells hdr cells acc).
Proof.
  revert cells acc. induction hdr as [|x hs IH]; intros cells acc; simpl.
  - intros [H|H]; [by apply elem_of_nil in H|done].
  - intros [[->|H]%elem_of_cons|H]; apply IH.
    + right. apply obj_keys_set. by right.
    + by left.
    + right. apply obj_keys_set. by left.
Qed.

Lemma add_key_keeps ks k x : k ∈ ks → k ∈ add_key ks x.
Proof.
  unfold add_key. destruct (bool_decide (x ∈ ks)); [done|].
  intros H. apply elem_of_app. by left.
Qed.

Lemma add_key_adds ks x : x ∈ add_key ks x.
Proof.
  unfold add_key. destruct (bool_decide (x ∈ ks)) eqn:E.
  - by apply bool_decide_eq_true in E.
  - apply elem_of_app. right. by apply list_elem_of_singleton.
Qed.

Lemma foldl_add_key ks new k :
  k ∈ ks ∨ k ∈ new → k ∈ foldl add_key ks new.
Proof.
  revert ks. induction new as [|x r IH]; intros ks; simpl.
  - intros [H|H]; [done|by apply elem_of_nil in H].
  - intros [H|[->|H]%elem_of_cons]; apply IH.
    + left. by apply add_key_keeps.
    + left. apply add_key_adds.
    + by right.
Qed.

Lemma columns_from ks rows k :
  k ∈ ks ∨ (∃ r, r ∈ rows ∧ k ∈ obj_keys r) →
  k ∈ foldl (fun a r => foldl add_key a (obj_keys r)) ks rows.
Proof.
  revert ks. induction rows as [|r0 rs IH]; intros ks; simpl.
  - intros [H|(r & H & _)]; [done|by apply elem_of_nil in H].
  - intros [H|(r & [->|H]%elem_of_cons & Hk)]; apply IH.
    + left. apply foldl_add_key. by left.
    + left. apply foldl_add_key. by right.
    + right. eauto.
Qed.

Lemma columns_key rows r k : r ∈ rows → k ∈ obj_keys r → k ∈ columns rows.
Proof. intros Hr Hk. apply columns_from. right. eauto. Qed.

(** C9 (as amended).  Encoding what the first sheet of a workbook
    decodes to gives one sheet with exactly as many data rows; and
    when there is at least one data row, every column name of the
    header is a column of the result. *)
Theorem roundtrip_rows_columns (s : sheet) (rest : workbook) :
  ∃ o, encode (decode (s :: rest)) = [o]
       ∧ length (body o) = length (body s)
       ∧ (body s ≠ [] → ∀ h, h ∈ header s → h ∈ header o).
Proof.
  eexists. split; [reflexivity|]. simpl. split.
  - by rewrite !length_fmap.
  - intros Hne h Hh. destruct (body s) as [|cells more] eqn:E; [done|].
    apply (columns_key _ (decode_cells (header s) cells [])).
    + simpl. apply elem_of_cons. by left.
    + apply decode_cells_keys. by left.
Qed.

Lemma roundtrip_rows_columns_witness :
  ∃ o, encode (decode Sample.upload) = [o]
       ∧ length (body o) = 1%nat
       ∧ u "Title" ∈ header o.
Proof.
  destruct (roundtrip_rows_columns
              {| sheet_name := u "Sheet1";
                 header := [u "Title"; u "Problem"];
                 body := [ [ Some (JStr (u "[X][Y] battery drains fast"));
                             Some (JStr (u "loses 20% per hour")) ] ] |} [])
    as (o & Ho & Hlen & Hcols).
  exists o. split_and!; [exact Ho|exact Hlen|].
  apply Hcols; [discriminate|]. apply elem_of_cons. by left.
Defined.

(** C9, counterexample.  A sheet with a header and no data row
    decodes to no rows, and no rows encode to a sheet without
    columns: the header is lost. *)
Lemma roundtrip_header_only_counterexample :
  decode Sample.header_only = []
  ∧ encode (decode Sample.header_only)
    = [ {| sheet_name := u "Data"; header := []; body := [] |} ].
Proof. split; reflexivity. Qed.

(** A blank cell decodes to the empty string, and only the first
    sheet is read. *)
Example decode_blank_cell :
  decode [ {| sheet_name := u "A"; header := [u "x"; u "y"];
              body := [ [ Some (JStr (u "1")); None ]; [] ] |};
           {| sheet_name := u "B"; header := [u "z"]; body := [ [None] ] |} ]
  = [ [ (u "x", JStr (u "1")); (u "y", JStr []) ];
      [ (u "x", JStr []); (u "y", JStr []) ] ].
Proof. vm_compute. reflexivity. Qed.

End CodecFacts.

(** * Further properties *)

(** ** Decimal printing and the names built on it *)

Section DecimalFacts.

Implicit Types (n : N) (acc ds : jsstr).

Lemma digits_fuel_value fuel n acc :
  n < 2 ^ N.of_nat fuel →
  fold_left (fun a d => 10 * a + (d - 48)) (digits_fuel fuel n acc) 0
  = fold_left (fun a d => 10 * a + (d - 48)) acc n.
Proof.
  revert n acc. induction fuel as [|f IH]; intros n acc Hn.
  - simpl in *. by replace n with 0 by lia.
  - cbn [digits_fuel]. destruct (N.ltb_spec n 10) as [Hlt|Hge].
    + simpl. f_equal. rewrite N.mod_small by done.
      by rewrite N.mul_0_r, N.add_0_l, (N.add_comm 48), N.add_sub.
    + rewrite IH.
      * simpl. f_equal. rewrite (N.add_comm 48), N.add_sub.
        symmetry. apply N.div_mod. done.
      * rewrite Nat2N.inj_succ, N.pow_succ_r' in Hn.
        apply N.Div0.div_lt_upper_bound. lia.
Qed.

Lemma decimal_value n : digits_value (decimal n) = n.
Proof.
  unfold digits_value, decimal. rewrite digits_fuel_value; [done|].
  rewrite Nat2N.inj_succ, N2Nat.id.
  destruct (N.eq_dec n 0) as [->|Hn]; [done|].
  apply N.log2_spec. lia.
Qed.

Lemma decimal_inj a b : decimal a = decimal b → a = b.
Proof. intros H. by rewrite <- (decimal_value a), H, decimal_value. Qed.

Lemma digits_fuel_digits fuel n acc :
  Forall (fun c => is_digit c = true) acc →
  Forall (fun c => is_digit c = true) (digits_fuel fuel n acc).
Proof.
  revert n acc. induction fuel as [|f IH]; intros n acc Hacc; [done|].
  cbn [digits_fuel].
  assert (Forall (fun c => is_digit c = true) ((48 + n mod 10) :: acc)) as H.
  { constructor; [|done]. unfold is_digit.
    pose proof (N.mod_upper_bound n 10 ltac:(done)) as Hm.
    revert Hm. generalize (n mod 10). intros m Hm.
    apply andb_true_intro. split; apply N.leb_le; lia. }
  destruct (N.ltb n 10); [done|]. by apply IH.
Qed.

Lemma decimal_digits n : Forall (fun c => is_digit c = true) (decimal n).
Proof. apply digits_fuel_digits. constructor. Qed.

Lemma digits_dash_split ds1 ds2 (r1 r2 : jsstr) :
  Forall (fun c => is_digit c = true) ds1 →
  Forall (fun c => is_digit c = true) ds2 →
  ds1 ++ DASH :: r1 = ds2 ++ DASH :: r2 → ds1 = ds2 ∧ r1 = r2.
Proof.
  intros H1. revert ds2. induction H1 as [|d ds1 Hd _ IH]; intros ds2 H2 E.
  - destruct H2 as [|d2 ds2 Hd2 _]; simpl in E; by simplify_eq.
  - destruct H2 as [|d2 ds2 Hd2 H2]; simpl in E; simplify_eq; try done.
    destruct (IH _ H2 ltac:(done)) as [-> ->]. done.
Qed.

(** X3.  The name an upload is stored under determines both the
    clock reading and the original filename: two uploads share a
    stored name only when both are the same. *)
Theorem uploadFilename_inj t1 t2 (n1 n2 : jsstr) :
  uploadFilename t1 n1 = uploadFilename t2 n2 ↔ t1 = t2 ∧ n1 = n2.
Proof.
  split; [|by intros [-> ->]].
  unfold uploadFilename. intros E.
  apply digits_dash_split in E as [E ->]; [|apply decimal_digits..].
  by apply decimal_inj in E as ->.
Qed.

(** X4.  In [part_000] the output filename determines the clock
    reading and the original filename: two outputs share a name only
    when they were written in the same millisecond for the same
    original filename. *)
Theorem processedFilename_ms_inj t1 t2 (n1 n2 : jsstr) :
  processedFilename_ms t1 n1 = processedFilename_ms t2 n2 ↔ t1 = t2 ∧ n1 = n2.
Proof.
  split; [|by intros [-> ->]].
  unfold processedFilename_ms. intros E. apply app_inv_head in E.
  apply digits_dash_split in E as [E ->]; [|apply decimal_digits..].
  by apply decimal_inj in E as ->.
Qed.

Lemma digit_not_colon (l : jsstr) :
  Forall (fun c => is_digit c = true) l → COLON ∉ l.
Proof.
  intros H Hin. rewrite Forall_forall in H. by apply H in Hin.
Qed.

Lemma removeColons_no_colon (model : jsstr) : COLON ∉ removeColons model.
Proof.
  induction model as [|c r IH]; simpl; [apply not_elem_of_nil|].
  destruct (N.eqb_spec c COLON); [done|].
  apply not_elem_of_cons. split; [congruence|done].
Qed.

Lemma pad2_no_colon n : COLON ∉ pad2 n.
Proof.
  unfold pad2, slice_last2. apply digit_not_colon, Forall_drop.
  constructor; [done|apply decimal_digits].
Qed.

Lemma datetime_no_colon now : COLON ∉ datetime now.
Proof.
  unfold datetime. rewrite !not_elem_of_app. split_and!;
    try apply pad2_no_colon.
  - unfold numberToString. destruct (Z.ltb _ _).
    + apply not_elem_of_cons. split; [done|].
      apply digit_not_colon, decimal_digits.
    + apply digit_not_colon, decimal_digits.
  - by intros ?%list_elem_of_singleton.
Qed.

(** X5.  The output filename of [server.js] holds a colon exactly
    when the original filename holds one: the model id and the
    timestamp never contribute a colon, and the original filename is
    taken as it is. *)
Theorem processedFilename_colon model now (name : jsstr) :
  COLON ∈ processedFilename model now name ↔ COLON ∈ name.
Proof.
  unfold processedFilename. rewrite !elem_of_app.
  pose proof (removeColons_no_colon model).
  pose proof (datetime_no_colon now).
  assert (COLON ∉ u "-") by (by intros ?%list_elem_of_singleton).
  tauto.
Qed.







End DecimalFacts.

(** ** More on the extraction *)

Section ExtractionShape.

Implicit Types (t s pre mid post : jsstr) (v : jsval).

Lemma lastIndexOf_split c s :
  lastIndexOf c s ≠ (-1)%Z →
  ∃ pre post, (s = pre ++ c :: post) ∧ (c ∉ post)
              ∧ (lastIndexOf c s = Z.of_nat (length pre)).
Proof.
  induction s as [|x r IH]; simpl; [done|].
  destruct (Z.eqb_spec (lastIndexOf c r) (-1)) as [E|E].
  - destruct (N.eqb_spec x c) as [->|Hne]; [|done].
    intros _. exists [], r. split_and!; [done| |done].
    intros Hin. by apply lastIndexOf_present in Hin.
  - intros _. destruct (IH E) as (pre & post & -> & Hpost & Hi).
    exists (x :: pre), post. split_and!; [done..|simpl; lia].
Qed.

(** X2.  Whenever the slicing step succeeds, the text is prose without
    [[], then the slice, then prose without []], and the slice runs
    from a [[] to a []]: it is a contiguous part of the reply, from
    its first [[] to its last []]. *)
Theorem sliceArray_shape t s :
  sliceArray t = Ok s →
  ∃ pre mid post,
    (t = pre ++ array_text mid ++ post) ∧ (s = array_text mid)
    ∧ (LBRACKET ∉ pre) ∧ (RBRACKET ∉ post).
Proof.
  intros Hs. pose proof Hs as Hs'. revert Hs'. unfold sliceArray.
  destruct (Z.eqb_spec (indexOf LBRACKET t) (-1)) as [|Hf]; [done|].
  destruct (Z.eqb_spec (lastIndexOf RBRACKET t) (-1)) as [|Hl]; [done|].
  destruct (Z.ltb_spec (indexOf LBRACKET t) (lastIndexOf RBRACKET t)) as [Hlt|];
    [|done].
  intros _.
  destruct (indexOf_split _ _ Hf) as (pre & rest & E1 & Hpre & Hi).
  destruct (lastIndexOf_split _ _ Hl) as (pre2 & post & E2 & Hpost & Hj).
  rewrite Hi, Hj in Hlt.
  assert (∃ mid, rest = mid ++ RBRACKET :: post) as [mid ->].
  { rewrite E1 in E2. apply app_eq_inv in E2 as [(k & Hk1 & Hk2)|(k & Hk1 & Hk2)].
    - rewrite Hk1, length_app in Hlt.
      destruct k as [|x k]; simpl in *.
      + lia.
      + lia.
    - destruct k as [|x k]; simpl in *.
      + rewrite app_nil_r in Hk1. subst. lia.
      + injection Hk2 as _ ->. eauto. }
  exists pre, mid, post.
  assert (t = pre ++ array_text mid ++ post) as Ht.
  { rewrite E1. unfold array_text. simpl. by rewrite <- app_assoc. }
  split_and!; [done| |done|done].
  rewrite Ht, sliceArray_embedded in Hs by done. by injection Hs as <-.
Qed.

Lemma sliceArray_shape_witness :
  sliceArray Sample.bracket_prose_reply
  = Ok (q "['a', 'b']" ++ u " (see [notes]")
  ∧ ∃ pre mid post,
      (Sample.bracket_prose_reply = pre ++ array_text mid ++ post)
      ∧ (q "['a', 'b']" ++ u " (see [notes]" = array_text mid)
      ∧ (LBRACKET ∉ pre) ∧ (RBRACKET ∉ post).
Proof.
  assert (H : sliceArray Sample.bracket_prose_reply
              = Ok (q "['a', 'b']" ++ u " (see [notes]"))
    by (vm_compute; reflexivity).
  split; [exact H|]. exact (sliceArray_shape _ _ H).
Defined.

(** X1.  Whatever value the handlers take from a reply is a JSON
    array: the slice starts with [[], and a text that starts with
    [[] parses to an array or not at all. *)
Theorem parsed_reply_is_array modelResult v :
  parseReply modelResult = Ok v → ∃ elements, v = JArr elements.
Proof.
  unfold parseReply, parseReplyWith.
  destruct modelResult as [| | | |s| |]; try done.
  destruct (trim s) as [|c r]; [done|]. apply extract_is_array.
Qed.

Lemma parsed_reply_is_array_witness :
  parseReply (JStr Sample.reply) = Ok (JArr [Sample.reply_record])
  ∧ ∃ elements, JArr [Sample.reply_record] = JArr elements.
Proof.
  assert (H : parseReply (JStr Sample.reply) = Ok (JArr [Sample.reply_record]))
    by (vm_compute; reflexivity).
  split; [exact H|]. exact (parsed_reply_is_array _ _ H).
Defined.

End ExtractionShape.

(** ** More on the overlay *)

Section OverlayOrder.

Implicit Types (rows : list row) (parsed : list jsval) (r : row).

Lemma obj_keys_set_order (kvs : list (jsstr * jsval)) k v :
  obj_keys (obj_set kvs k v)
  = obj_keys kvs ++ filter (fun x => x ∉ obj_keys kvs) [k].
Proof.
  rewrite filter_cons, filter_nil.
  induction kvs as [|[k0 v0] rest IH].
  - destruct (decide (k ∉ obj_keys [])) as [H|H]; [done|].
    exfalso. apply H, not_elem_of_nil.
  - cbn [obj_set]. destruct (str_eqb k0 k) eqn:E.
    + apply str_eqb_eq in E as ->.
      destruct (decide (k ∉ obj_keys ((k, v0) :: rest))) as [H|H].
      * exfalso. apply H. apply elem_of_cons. by left.
      * symmetry. apply app_nil_r.
    + change (obj_keys ((k0, v0) :: obj_set rest k v))
        with (k0 :: obj_keys (obj_set rest k v)).
      change (obj_keys ((k0, v0) :: rest)) with (k0 :: obj_keys rest).
      rewrite IH. simpl. f_equal. f_equal.
      assert (k0 ≠ k) as Hne.
      { intros Heq. rewrite Heq, str_eqb_refl in E. discriminate. }
      apply decide_ext. rewrite not_elem_of_cons.
      split; [intros ?; split; [congruence|done]|tauto].
Qed.

Lemma filter_singleton_iff (K K' : list jsstr) k :
  (k ∈ K' ↔ k ∈ K) →
  filter (fun x => x ∉ K') [k] = filter (fun x => x ∉ K) [k].
Proof.
  intros Hk. rewrite !filter_cons, !filter_nil. apply decide_ext. tauto.
Qed.

Lemma filter_singleton_absent (P : jsstr → Prop) `{∀ x, Decision (P x)} k k' :
  k ≠ k' → k ∉ filter P [k'].
Proof.
  intros Hne [_ Hin%list_elem_of_singleton]%list_elem_of_filter. done.
Qed.

(** X6.  The overlay keeps the columns of the original row in their
    order and appends, in the order Module, Summarized Problem,
    Severity, those of the three that the row did not have. *)
Theorem overlay_column_order rows parsed i r :
  rows !! i = Some r →
  ∃ merged r',
    mergeOverlay rows parsed = Ok merged
    ∧ merged !! i = Some r'
    ∧ obj_keys r'
      = obj_keys r ++ filter (fun k => k ∉ obj_keys r) overlay_keys.
Proof.
  intros Hr. eexists _, _. split; [apply mergeOverlay_ok|].
  split; [by rewrite list_lookup_imap, Hr|].
  destruct overlay_keys_distinct as (Hms & Hmv & Hsv).
  rewrite !obj_keys_set_order.
  rewrite <- !app_assoc.
  rewrite (filter_singleton_iff (obj_keys r) _ Summarized_Problem).
  2:{ rewrite elem_of_app.
      pose proof (filter_singleton_absent (fun x => x ∉ obj_keys r)
                    Summarized_Problem Module_ ltac:(congruence)).
      tauto. }
  rewrite (filter_singleton_iff (obj_keys r) _ Severity).
  2:{ rewrite !elem_of_app.
      pose proof (filter_singleton_absent (fun x => x ∉ obj_keys r)
                    Severity Module_ ltac:(congruence)).
      pose proof (filter_singleton_absent (fun x => x ∉ obj_keys r)
                    Severity Summarized_Problem ltac:(congruence)).
      tauto. }
  unfold overlay_keys.
  change [Module_; Summarized_Problem; Severity]
    with ([Module_] ++ [Summarized_Problem] ++ [Severity]).
  by rewrite !filter_app.
Qed.

Lemma overlay_column_order_witness :
  [Sample.input_row] !! 0%nat = Some Sample.input_row
  ∧ ∃ merged r',
      mergeOverlay [Sample.input_row] [] = Ok merged
      ∧ merged !! 0%nat = Some r'
      ∧ obj_keys r'
        = [u "Title"; u "Problem"; Module_; Summarized_Problem; Severity].
Proof.
  assert (H : [Sample.input_row] !! 0%nat = Some Sample.input_row) by reflexivity.
  split; [exact H|].
  destruct (overlay_column_order [Sample.input_row] [] 0 _ H)
    as (merged & r' & Hm & Hl & Hk).
  exists merged, r'. split_and!; [exact Hm|exact Hl|].
  rewrite Hk. vm_compute. reflexivity.
Defined.

End OverlayOrder.

(** ** Client and handler together *)

Section ClientAndHandler.

Implicit Types (body s : jsstr) (v : jsval).

Lemma extractWith_not_empty parse t : extractWith parse t ≠ Throw EmptyResponse.
Proof.
  unfold extractWith, sliceArray.
  destruct (_ && _); simpl; [|done].
  unfold parseSlice. by destruct (parse _).
Qed.

(** X8.  In [part_000] the handler's own empty-reply test never
    fires after the client has resolved: a resolved reply is a string
    with something left after trimming, which goes on to the
    extraction, or no string at all, on which [trim] throws. *)
Theorem resolved_reply_not_empty body v :
  Client.callOllama_end body = Ok v →
  parseReply v ≠ Throw EmptyResponse
  ∧ ((∃ s, v = JStr s ∧ trim s ≠ [] ∧ parseReply v = extract (trim s))
     ∨ parseReply v = Throw TypeError).
Proof.
  intros Hv%callOllama_end_not_blank. unfold Client.blank_reply in Hv.
  apply orb_false_elim in Hv as [_ Hs].
  destruct v as [| | | |s| |]; try (split; [done|by right]).
  apply bool_decide_eq_false in Hs.
  unfold parseReply, parseReplyWith.
  destruct (trim s) as [|c r] eqn:E; [done|].
  split; [apply extractWith_not_empty|]. left. exists s. by rewrite E.
Qed.

Lemma resolved_reply_not_empty_witness :
  Client.callOllama_end (q "{'response':' [] '}") = Ok (JStr (u " [] "))
  ∧ parseReply (JStr (u " [] ")) ≠ Throw EmptyResponse.
Proof.
  assert (H : Client.callOllama_end (q "{'response':' [] '}")
              = Ok (JStr (u " [] "))) by (vm_compute; reflexivity).
  split; [exact H|]. exact (proj1 (resolved_reply_not_empty _ _ H)).
Defined.

(** X9.  The client of [server.js] resolves with the whole parsed body
    when the body is an object whose [response] is missing or [null],
    an error body of the backend included.  The text route then
    answers success with that object as the result, and the
    spreadsheet handler fails on [trim] with a [TypeError]. *)
Theorem missing_response_resolves_body body (kvs : list (jsstr * jsval)) :
  JSON_parse body = Some (JObj kvs) →
  obj_get kvs (u "response") = None ∨ obj_get kvs (u "response") = Some JNull →
  Client.callOllama_end_server body = Ok (JObj kvs)
  ∧ parseReply (JObj kvs) = Throw TypeError
  ∧ ∀ backend b c t,
      text_ b = Some (c :: t) →
      backend (fullPrompt (or_default (processingType_ b) (u "custom"))
                 (or_default (customPrompt_ b) []) (c :: t))
        (modelOf (model_ b)) = body →
      processText (viaClient Client.callOllama_end_server backend) b
      = TextOk (JObj kvs) (S (length t)).
Proof.
  intros Hj Hresp.
  assert (Client.callOllama_end_server body = Ok (JObj kvs)) as Hc.
  { unfold Client.callOllama_end_server. rewrite Hj.
    unfold getProp, get. by destruct Hresp as [-> | ->]. }
  split_and!; [done..|].
  intros backend b c t Ht Hb. unfold processText, viaClient.
  rewrite Ht, Hb, Hc. done.
Qed.

Lemma missing_response_resolves_body_witness :
  JSON_parse (q "{'error':'model not found'}")
  = Some (JObj [(u "error", JStr (u "model not found"))])
  ∧ Client.callOllama_end_server (q "{'error':'model not found'}")
    = Ok (JObj [(u "error", JStr (u "model not found"))])
  ∧ Client.callOllama_end (q "{'error':'model not found'}")
    = Throw (OllamaError (JStr (u "model not found"))).
Proof.
  assert (H : JSON_parse (q "{'error':'model not found'}")
              = Some (JObj [(u "error", JStr (u "model not found"))]))
    by (vm_compute; reflexivity).
  split_and!; [exact H| |vm_compute; reflexivity].
  exact (proj1 (missing_response_resolves_body _ _ H (or_introl eq_refl))).
Defined.



End ClientAndHandler.

(** ** Prompts *)

Section PromptFacts.

Implicit Types (text : jsstr).


(** X14.  A custom request without a custom prompt: [/api/process-text]
    of the first variant of [server.js] sends the word [undefined] as
    the instruction, while its [/api/process] sends an empty one. *)
Theorem custom_without_prompt {buffer} (utf8 : buffer → jsstr) ollama b c t
    (st : fs buffer) :
  text_ b = Some (c :: t) →
  processingType_ b = Some (u "custom") →
  customPrompt_ b = None →
  processText_simple ollama b
  = match ollama (u "undefined" ++ BLANK_LINE ++ c :: t) SIMPLE_MODEL with
    | Ok v => TextOk v (S (length t))
    | Throw e => ServerError e
    end
  ∧ process_simple ollama utf8 None b st
    = (st, match ollama (BLANK_LINE ++ c :: t) SIMPLE_MODEL with
           | Ok v => TextOk v (S (length t))
           | Throw e => ServerError e
           end).
Proof.
  intros Ht Hp Hc. unfold processText_simple, process_simple.
  rewrite Ht, Hp, Hc. simpl. split; [done|].
  by destruct (ollama _ _).
Qed.

Lemma custom_without_prompt_witness :
  processText_simple (fun prompt _ => Ok (JStr prompt))
    {| text_ := Some (u "hi"); processingType_ := Some (u "custom");
       customPrompt_ := None; model_ := None |}
  = TextOk (JStr (u "undefined" ++ BLANK_LINE ++ u "hi")) 2.
Proof.
  exact (proj1 (custom_without_prompt (fun _ : unit => [])
                  (fun prompt _ => Ok (JStr prompt))
                  {| text_ := Some (u "hi"); processingType_ := Some (u "custom");
                     customPrompt_ := None; model_ := None |}
                  104 [105] (mkFs ∅ ∅) eq_refl eq_refl eq_refl)).
Defined.

End PromptFacts.

(** ** The upload across a request *)

Section UploadFacts.

Context {buffer : Type}.
Variable xlsx_decode : buffer → result (list row).
Variable xlsx_encode : jsval → result buffer.
Variable path_join : jsstr → jsstr → jsstr.
Variable utf8 : buffer → jsstr.

Implicit Types (st : fs buffer) (req : request) (buf : buffer).

(** X7.  In [part_000], once the upload decodes and the reply parses,
    the workbook written holds exactly one record per uploaded row,
    each with the columns Module, Summarized Problem and Severity,
    whatever the reply's array holds. *)
Theorem overlay_one_record_per_row req modelResult st wb rows parsed :
  readFileSync (file_path req) st = Ok wb →
  xlsx_decode wb = Ok rows →
  parseReply modelResult = Ok parsed →
  ∃ merged,
    prepare_overlay xlsx_decode xlsx_encode req (Ok modelResult) st
    = xlsx_encode (JArr (JObj <$> merged))
    ∧ length merged = length rows
    ∧ ∀ r' k, r' ∈ merged → k ∈ overlay_keys → k ∈ obj_keys r'.
Proof.
  clear path_join utf8. intros Hr Hd Hp.
  destruct (parseReply_is_array _ _ Hp) as [xs ->].
  eexists. split.
  - unfold prepare_overlay. rewrite Hr. simpl. rewrite Hd. simpl.
    rewrite Hp. simpl. rewrite mergeOverlay_ok. reflexivity.
  - split; [apply length_imap|].
    intros r' k (i & r & -> & _)%elem_of_lookup_imap_1 Hk.
    unfold overlay_keys in Hk. rewrite !obj_keys_set.
    rewrite !elem_of_cons, elem_of_nil in Hk. tauto.
Qed.

Lemma store_keeps_upload name req buf st st' outcome :
  path_join (u "downloads") name ≠ file_path req →
  storeAs path_join name req buf st = (st', outcome) →
  match outcome with
  | Throw _ => files st' !! file_path req = files st !! file_path req
  | Ok answered =>
      files st' !! file_path req = None
      ∧ files st' !! path_join (u "downloads") name = Some buf
      ∧ answered = (downloadUrl name, name)
  end.
Proof.
  intros Hne. unfold storeAs, writeFileSync, unlinkSync.
  destruct (decide (path_join (u "downloads") name ∈ denied st));
    [by intros [= <- <-]|].
  simpl. destruct (decide (file_path req ∈ denied st)).
  { intros [= <- <-]. simpl. by rewrite lookup_insert_ne. }
  rewrite lookup_insert_ne by done.
  destruct (files st !! file_path req) eqn:E.
  - intros [= <- <-]. simpl. rewrite lookup_delete_eq.
    by rewrite lookup_delete_ne, lookup_insert_eq.
  - intros [= <- <-]. simpl. by rewrite lookup_insert_ne.
Qed.

Lemma answer_keeps_upload name req prepared st :
  path_join (u "downloads") name ≠ file_path req →
  match answer st prepared (storeAs path_join name req) with
  | (st', log, Failure status _) =>
      files st' !! file_path req = files st !! file_path req
      ∧ status = 500 ∧ log ≠ []
  | (st', log, Success url filename) =>
      files st' !! file_path req = None
      ∧ is_Some (files st' !! path_join (u "downloads") name) ∧ log = []
      ∧ filename = name ∧ url = downloadUrl name
  end.
Proof.
  intros Hne. unfold answer. destruct prepared as [buf|e]; [|done].
  destruct (storeAs path_join name req buf st) as [st' outcome] eqn:E.
  pose proof (store_keeps_upload _ _ _ _ _ _ Hne E) as H.
  destruct outcome as [[url name']|e]; [|done].
  destruct H as (H1 & H2 & [= -> ->]). rewrite H2. eauto 10.
Qed.

(** X10.  A spreadsheet request that fails, at whatever step, answers
    500, logs the error and leaves the upload where it was; one that
    succeeds has removed the upload, logs nothing, and names in its
    answer the file it has written under [downloads].  This holds for
    the handler of [server.js] and for the one of [part_000], when
    the output path is not the upload's. *)
Theorem upload_removed_only_on_success req reply now nowMs st :
  path_join (u "downloads")
    (processedFilename (modelOf (body_model req)) now (file_originalname req))
  ≠ file_path req →
  path_join (u "downloads")
    (processedFilename_ms nowMs (file_originalname req))
  ≠ file_path req →
  match processExcel xlsx_decode xlsx_encode path_join req reply now st with
  | (st', log, Failure status _) =>
      files st' !! file_path req = files st !! file_path req
      ∧ status = 500 ∧ log ≠ []
  | (st', log, Success url filename) =>
      files st' !! file_path req = None
      ∧ is_Some (files st' !! path_join (u "downloads")
                   (processedFilename (modelOf (body_model req)) now
                      (file_originalname req)))
      ∧ log = []
      ∧ filename = processedFilename (modelOf (body_model req)) now
                     (file_originalname req)
      ∧ url = downloadUrl (processedFilename (modelOf (body_model req)) now
                             (file_originalname req))
  end
  ∧ match processExcel_overlay xlsx_decode xlsx_encode path_join req reply
            nowMs st with
    | (st', log, Failure status _) =>
        files st' !! file_path req = files st !! file_path req
        ∧ status = 500 ∧ log ≠ []
    | (st', log, Success url filename) =>
        files st' !! file_path req = None
        ∧ is_Some (files st' !! path_join (u "downloads")
                     (processedFilename_ms nowMs (file_originalname req)))
        ∧ log = []
        ∧ filename = processedFilename_ms nowMs (file_originalname req)
        ∧ url = downloadUrl (processedFilename_ms nowMs (file_originalname req))
    end.
Proof.
  clear utf8. intros H1 H2. split.
  - apply (answer_keeps_upload _ _ _ _ H1).
  - apply (answer_keeps_upload _ _ _ _ H2).
Qed.

(** X11.  An upload that is no spreadsheet is read and removed before
    the model is called: when the file is there and can be removed,
    it is gone after the request whether the model answers or fails,
    and the text sent is the file's; when it cannot be read or
    removed, the answer is an error and the model is not asked. *)
Theorem plain_upload_removed_first ollama model req b st :
  (∀ content,
     files st !! file_path req = Some content →
     file_path req ∉ denied st →
     processPlainFile ollama utf8 model req b st
     = (mkFs (delete (file_path req) (files st)) (denied st),
        match ollama (fullPrompt (or_default (processingType_ b) (u "custom"))
                        (or_default (customPrompt_ b) []) (utf8 content))
                model with
        | Ok v => TextOk v (length (utf8 content))
        | Throw e => ServerError e
        end))
  ∧ (files st !! file_path req = None ∨ file_path req ∈ denied st →
     ∃ e, ∀ ollama', processPlainFile ollama' utf8 model req b st
                     = (st, ServerError e)).
Proof.
  split.
  - intros content Hf Hd.
    unfold processPlainFile, readFileSync, unlinkSync.
    rewrite Hf. rewrite decide_False by done.
    by destruct (ollama _ _).
  - unfold processPlainFile, readFileSync, unlinkSync.
    intros [Hf|Hd].
    + rewrite Hf. eauto.
    + destruct (files st !! file_path req); [|eauto].
      rewrite decide_True by done. eauto.
Qed.

End UploadFacts.

Lemma overlay_one_record_per_row_witness :
  ∃ merged,
    prepare_overlay Codec.xlsx_decode Codec.xlsx_encode Sample.req
      (Ok (JStr Sample.reply)) Sample.fs_ready
    = Codec.xlsx_encode (JArr (JObj <$> merged))
    ∧ length merged = 1%nat.
Proof.
  destruct (overlay_one_record_per_row Codec.xlsx_decode Codec.xlsx_encode
              Sample.req (JStr Sample.reply) Sample.fs_ready Sample.upload
              (Codec.decode Sample.upload) (JArr [Sample.reply_record])
              ltac:(vm_compute; reflexivity) eq_refl
              ltac:(vm_compute; reflexivity))
    as (merged & H1 & H2 & _).
  exists merged. split; [exact H1|exact H2].
Defined.

Lemma upload_removed_only_on_success_witness :
  files (processExcel Codec.xlsx_decode Codec.xlsx_encode join_plain Sample.req
           (Ok (JStr (u "no array here"))) Sample.now Sample.fs_ready).1.1
    !! file_path Sample.req
  = Some Sample.upload.
Proof.
  pose proof (upload_removed_only_on_success Codec.xlsx_decode
                Codec.xlsx_encode join_plain Sample.req
                (Ok (JStr (u "no array here"))) Sample.now 0 Sample.fs_ready
                ltac:(vm_compute; discriminate)
                ltac:(vm_compute; discriminate)) as [H _].
  destruct (processExcel _ _ _ _ _ _ _) as [[st' log] [url name|status e]] eqn:E.
  - vm_compute in E. discriminate.
  - destruct H as [H _].
    change (files st' !! file_path Sample.req = Some Sample.upload).
    rewrite H. vm_compute. reflexivity.
Defined.

Lemma plain_upload_removed_first_witness :
  (processPlainFile (fun _ _ => Throw (ConnectFailed (u "ECONNREFUSED")))
     (fun _ : Codec.workbook => u "notes") DEFAULT_MODEL Sample.req
     {| text_ := None; processingType_ := None; customPrompt_ := None;
        model_ := None |} Sample.fs_ready)
  = (mkFs (delete (file_path Sample.req) (files Sample.fs_ready)) ∅,
     ServerError (ConnectFailed (u "ECONNREFUSED"))).
Proof.
  exact (proj1 (plain_upload_removed_first
                  (fun _ : Codec.workbook => u "notes")
                  (fun _ _ => Throw (ConnectFailed (u "ECONNREFUSED")))
                  DEFAULT_MODEL Sample.req
                  {| text_ := None; processingType_ := None;
                     customPrompt_ := None; model_ := None |}
                  Sample.fs_ready)
           Sample.upload ltac:(vm_compute; reflexivity)
           ltac:(apply not_elem_of_empty)).
Defined.

(** ** Model list and health *)

Section StatusFacts.

Implicit Types (data : jsstr) (ms : list jsval).

Lemma names_of_models ms :
  Forall (fun m => m ≠ JNull ∧ m ≠ JUndefined) ms →
  mapM (fun m => match getProp m (u "name") with
                 | Ok name => Some name
                 | Throw _ => None
                 end) ms
  = Some ((fun m => get m (u "name")) <$> ms).
Proof.
  induction 1 as [|m ms [Hn Hu] _ IH]; [done|].
  cbn [mapM]. rewrite IH.
  by destruct m.
Qed.

Lemma names_of_models_null ms :
  JNull ∈ ms →
  mapM (fun m => match getProp m (u "name") with
                 | Ok name => Some name
                 | Throw _ => None
                 end) ms = None.
Proof.
  induction ms as [|m ms IH]; [by intros ?%elem_of_nil|].
  intros [<-|Hin]%elem_of_cons; cbn [mapM]; [done|].
  rewrite (IH Hin). by destruct (getProp m (u "name")).
Qed.

(** X15.  [/api/models] answers with one name per entry of the
    backend's [models] array, in order, an entry without a name giving
    [undefined]; with an empty list when the body has no [models]; and
    with the one fixed failure when the status is not 200, when the
    request fails, or when an entry is [null]. *)
Theorem models_route :
  (∀ data kvs ms,
     JSON_parse data = Some (JObj kvs) →
     obj_get kvs (u "models") = Some (JArr ms) →
     Forall (fun m => m ≠ JNull ∧ m ≠ JUndefined) ms →
     modelsRoute (Some (200, data))
     = ModelsOk ((fun m => get m (u "name")) <$> ms))
  ∧ (∀ data kvs,
       JSON_parse data = Some (JObj kvs) →
       obj_get kvs (u "models") = None →
       modelsRoute (Some (200, data)) = ModelsOk [])
  ∧ (∀ data kvs ms,
       JSON_parse data = Some (JObj kvs) →
       obj_get kvs (u "models") = Some (JArr ms) →
       JNull ∈ ms →
       modelsRoute (Some (200, data)) = ModelsFailed)
  ∧ (∀ statusCode data,
       statusCode ≠ 200 → modelsRoute (Some (statusCode, data)) = ModelsFailed)
  ∧ modelsRoute None = ModelsFailed.
Proof.
  split_and!.
  - intros data kvs ms Hj Hm Hms. unfold modelsRoute, models_end.
    rewrite N.eqb_refl, Hj.
    change (getProp (JObj kvs) (u "models"))
      with (Ok (default JUndefined (obj_get kvs (u "models")))).
    rewrite Hm.
    cbn [default from_option id truthy]. by rewrite names_of_models.
  - intros data kvs Hj Hm. unfold modelsRoute, models_end.
    rewrite N.eqb_refl, Hj.
    change (getProp (JObj kvs) (u "models"))
      with (Ok (default JUndefined (obj_get kvs (u "models")))).
    by rewrite Hm.
  - intros data kvs ms Hj Hm Hnull. unfold modelsRoute, models_end.
    rewrite N.eqb_refl, Hj.
    change (getProp (JObj kvs) (u "models"))
      with (Ok (default JUndefined (obj_get kvs (u "models")))).
    rewrite Hm.
    cbn [default from_option id truthy]. by rewrite names_of_models_null.
  - intros statusCode data Hs. unfold modelsRoute, models_end.
    by destruct (N.eqb_spec statusCode 200).
  - done.
Qed.

Lemma models_route_witness :
  modelsRoute
    (Some (200, q "{'models':[{'name':'gemma3:4b','size':3},{'model':'x'}]}"))
  = ModelsOk [JStr (u "gemma3:4b"); JUndefined].
Proof.
  destruct models_route as (H & _).
  rewrite (H _ [(u "models",
                 JArr [JObj [(u "name", JStr (u "gemma3:4b"));
                             (u "size",
                              JNum {| num_neg := false; num_mant := 3;
                                      num_exp10 := 0 |})];
                       JObj [(u "model", JStr (u "x"))]])]
             [JObj [(u "name", JStr (u "gemma3:4b"));
                    (u "size",
                     JNum {| num_neg := false; num_mant := 3; num_exp10 := 0 |})];
              JObj [(u "model", JStr (u "x"))]]).
  - vm_compute. reflexivity.
  - vm_compute. reflexivity.
  - vm_compute. reflexivity.
  - repeat constructor; discriminate.
Defined.

(** X16.  With the health route of the second variant of [server.js]
    and of [part_000] the page shows the backend as connected
    whatever the probe found, since the route answers status [ok]
    either way; with the route of the first variant it shows
    connected exactly when the model call resolved. *)
Theorem page_status probe hello :
  checkOllamaConnection (Some (health_server probe))
  = (u "connected", u "Ollama Connected")
  ∧ (checkOllamaConnection (Some (health_simple hello))
     = (u "connected", u "Ollama Connected")
     ↔ ∃ v, hello = Ok v).
Proof.
  split.
  - unfold health_server. by destruct probe as [s|]; [destruct (N.eqb s 200)|].
  - destruct hello as [v|e]; simpl.
    + split; [eauto|done].
    + split; [intros H; vm_compute in H; discriminate|by intros [v ?]].
Qed.

Example page_status_disconnected :
  ollama_ (health_server None) = u "disconnected"
  ∧ checkOllamaConnection (Some (health_server None))
    = (u "connected", u "Ollama Connected")
  ∧ checkOllamaConnection
      (Some (health_simple (Throw (ConnectFailed (u "ECONNREFUSED")))))
    = (u "error", u "Ollama Disconnected").
Proof. split_and!; vm_compute; reflexivity. Qed.

End StatusFacts.

